(** * everyday_my_arxiv: the paper selection pipeline

    A shallow embedding of the filtering, keyword scoring, selection and
    impact ranking code of the daily arXiv report
    ([src/utils/filters.py], [src/arxiv/parser.py], [src/utils/citation.py],
    and the stage order of [scripts/run_daily_report.py]).

    Modelling conventions.
    - A paper is a Python [dict]; it is a finite map from field names to
      values.  Papers are objects: lists hold references to them and
      the stages that write fields do so in place, so the papers live in a
      store indexed by references.
    - Python numbers are exact rationals ([Q]); text is ASCII
      ([str.lower] maps 'A'..'Z' only); [datetime.date] values are
      proleptic Gregorian ordinals as given by [date.toordinal].
    - Python exceptions are the [Raise] results of an error monad; a stage
      working on papers is a state transformer over the store. *)

From Stdlib Require Import ZArith QArith Lqa Ascii String List Bool Lia Permutation Sorted.
From stdpp Require Import base option list gmap strings functions sorting.

Local Open Scope string_scope.
Local Open Scope list_scope.
Local Open Scope Z_scope.

(** ** The Python runtime fragment used by the pipeline *)

Module Py.

Inductive exn : Set :=
| KeyError (key : string)
| ValueError
| TypeError
| AttributeError
| OverflowError.

Inductive result (A : Type) : Type :=
| Ok (a : A)
| Raise (e : exn).
Arguments Ok {A} a.
Arguments Raise {A} e.

Definition rbind {A B} (m : result A) (f : A -> result B) : result B :=
  match m with
  | Ok a => f a
  | Raise e => Raise e
  end.

(** [str.lower] on ASCII text. *)
Definition lower_ascii (c : ascii) : ascii :=
  let n := N_of_ascii c in
  if ((65 <=? n) && (n <=? 90))%N then ascii_of_N (n + 32) else c.

Fixpoint lower (s : string) : string :=
  match s with
  | EmptyString => EmptyString
  | String c t => String (lower_ascii c) (lower t)
  end.

(** [needle in hay] for two strings: substring test. *)
Fixpoint str_contains (needle hay : string) : bool :=
  String.prefix needle hay ||
  match hay with
  | EmptyString => false
  | String _ t => str_contains needle t
  end.

(** [x in l] for a list of strings. *)
Definition list_contains (x : string) (l : list string) : bool :=
  existsb (String.eqb x) l.

(** The characters of a string, as Python iterates over it. *)
Fixpoint chars (s : string) : list string :=
  match s with
  | EmptyString => []
  | String c t => String c EmptyString :: chars t
  end.

End Py.
Export Py.

(** *** Calendar dates: [datetime.strptime(s, '%Y-%m-%d').date()] *)

Module Date.

Definition MINYEAR : Z := 1.
Definition MAXORDINAL : Z := 3652059.
Definition MAXDELTADAYS : Z := 999999999.

Definition is_leap (y : Z) : bool :=
  (y mod 4 =? 0) && (negb (y mod 100 =? 0) || (y mod 400 =? 0)).

Definition days_in_month (y m : Z) : Z :=
  if m =? 2 then (if is_leap y then 29 else 28)
  else if (m =? 4) || (m =? 6) || (m =? 9) || (m =? 11) then 30
  else 31.

Definition days_before_year (y : Z) : Z :=
  let y1 := y - 1 in y1 * 365 + y1 / 4 - y1 / 100 + y1 / 400.

Definition days_before_month (y m : Z) : Z :=
  fold_left (fun acc k => acc + days_in_month y k)
            (map Z.of_nat (seq 1 (Z.to_nat (m - 1)))) 0.

Definition ymd2ord (y m d : Z) : Z :=
  days_before_year y + days_before_month y m + d.

Definition digit (c : ascii) : option Z :=
  let n := Z.of_N (N_of_ascii c) in
  if (48 <=? n) && (n <=? 57) then Some (n - 48) else None.

Definition dash : ascii := "-"%char.
Definition space : ascii := " "%char.

(** The directive [%Y] is the pattern [\d\d\d\d]. *)
Definition match_year (cs : list ascii) : option (Z * list ascii) :=
  match cs with
  | a :: b :: c :: d :: r =>
      match digit a, digit b, digit c, digit d with
      | Some a, Some b, Some c, Some d => Some (a * 1000 + b * 100 + c * 10 + d, r)
      | _, _, _, _ => None
      end
  | _ => None
  end.

(** Two digits [x] [y] with [x] and [y] in the given ranges. *)
Definition two (lo1 hi1 lo2 hi2 : Z) (cs : list ascii) : list (Z * list ascii) :=
  match cs with
  | a :: b :: r =>
      match digit a, digit b with
      | Some x, Some y =>
          if (lo1 <=? x) && (x <=? hi1) && (lo2 <=? y) && (y <=? hi2)
          then [(10 * x + y, r)] else []
      | _, _ => []
      end
  | _ => []
  end.

Definition one (cs : list ascii) : list (Z * list ascii) :=
  match cs with
  | a :: r =>
      match digit a with
      | Some x => if 1 <=? x then [(x, r)] else []
      | None => []
      end
  | _ => []
  end.

(** [%m] is [1[0-2]|0[1-9]|[1-9]]: the alternatives in the order the
    regular expression tries them. *)
Definition match_month (cs : list ascii) : list (Z * list ascii) :=
  two 1 1 0 2 cs ++ two 0 0 1 9 cs ++ one cs.

(** [%d] is [3[0-1]|[1-2]\d|0[1-9]|[1-9]| [1-9]]. *)
Definition match_day (cs : list ascii) : list (Z * list ascii) :=
  two 3 3 0 1 cs ++ two 1 2 0 9 cs ++ two 0 0 1 9 cs ++ one cs ++
  match cs with
  | a :: r => if Ascii.eqb a space then one r else []
  | _ => []
  end.

(** After the month come a dash and the day; the first month alternative
    after which these match is the one taken.  The match need not reach
    the end of the text: what is left over is returned. *)
Definition match_dash_day (cs : list ascii) : option (Z * list ascii) :=
  match cs with
  | c :: r => if Ascii.eqb c dash then head (match_day r) else None
  | [] => None
  end.

Fixpoint first_month (alts : list (Z * list ascii)) : option (Z * Z * list ascii) :=
  match alts with
  | [] => None
  | (m, r) :: alts' =>
      match match_dash_day r with
      | Some (d, r') => Some (m, d, r')
      | None => first_month alts'
      end
  end.

Definition match_ymd (cs : list ascii) : option (Z * Z * Z * list ascii) :=
  match match_year cs with
  | Some (y, r) =>
      match r with
      | c :: r1 =>
          if Ascii.eqb c dash then
            match first_month (match_month r1) with
            | Some (m, d, r2) => Some (y, m, d, r2)
            | None => None
            end
          else None
      | [] => None
      end
  | None => None
  end.

(** [datetime.datetime.strptime(s, '%Y-%m-%d').date()] as an ordinal:
    [ValueError] when the text does not match the format, when text is
    left over, or when the day does not exist. *)
Definition strptime (s : string) : result Z :=
  match match_ymd (list_ascii_of_string s) with
  | Some (y, m, d, []) =>
      if (MINYEAR <=? y) && (d <=? days_in_month y m)
      then Ok (ymd2ord y m d) else Raise ValueError
  | _ => Raise ValueError
  end.

(** [d - datetime.timedelta(days=n)] on ordinals. *)
Definition sub_days (d n : Z) : result Z :=
  if (Z.abs n <=? MAXDELTADAYS) && (1 <=? d - n) && (d - n <=? MAXORDINAL)
  then Ok (d - n) else Raise OverflowError.

End Date.


(** ** Papers, the store and the stage monad *)

(** One entry of [match_details['primary_matches']]: the literal
    [{'keyword': .., 'location': .., 'weight': ..}]. *)
Record match_entry : Type := MatchEntry {
  keyword : string;
  location : string;
  weight : Q
}.

(** The [match_details] dictionary built by [match_keywords]; its four
    keys are fixed, so it is a record. *)
Record match_details : Type := MatchDetails {
  primary_matches : list match_entry;
  secondary_matches : list match_entry;
  excluded_matches : list string;
  author_matches : list string
}.

Definition match_details_keys : list string :=
  ["primary_matches"; "secondary_matches"; "excluded_matches"; "author_matches"]%string.

(** The field values a paper carries. *)
Inductive value : Type :=
| VNone
| VStr (s : string)
| VNum (q : Q)
| VList (l : list string)
| VDetails (d : match_details).

Abbreviation dict := (gmap string value).
Abbreviation loc := nat.

(** The store: every reference denotes a dictionary. *)
Abbreviation heap := (loc -> dict).

Module Stage.

(** A computation that may read and write papers and may raise; an
    exception leaves the writes done so far in place. *)
Definition py (A : Type) : Type := heap -> result A * heap.

Definition ret {A} (a : A) : py A := fun σ => (Ok a, σ).

Definition bind {A B} (m : py A) (f : A -> py B) : py B :=
  fun σ =>
    match m σ with
    | (Ok a, σ') => f a σ'
    | (Raise e, σ') => (Raise e, σ')
    end.

Definition lift {A} (r : result A) : py A := fun σ => (r, σ).

(** [paper[key]] *)
Definition getitem (paper : loc) (key : string) : py value :=
  fun σ =>
    (match σ paper !! key with
     | Some v => Ok v
     | None => Raise (KeyError key)
     end, σ).

(** [paper.get(key, dflt)] *)
Definition get (paper : loc) (key : string) (dflt : value) : py value :=
  fun σ => (Ok (default dflt (σ paper !! key)), σ).

(** [key in paper] *)
Definition has_key (paper : loc) (key : string) : py bool :=
  fun σ => (Ok (bool_decide (is_Some (σ paper !! key))), σ).

(** [paper[key] = v]: the dictionary the reference denotes is updated
    in place. *)
Definition setitem (paper : loc) (key : string) (v : value) : py unit :=
  fun σ => (Ok tt, <[paper := <[key := v]> (σ paper)]> σ).

(** [try: body except (ValueError, KeyError): handler] *)
Definition try_except_value_key {A} (body handler : py A) : py A :=
  fun σ =>
    match body σ with
    | (Raise ValueError, σ') => handler σ'
    | (Raise (KeyError _), σ') => handler σ'
    | r => r
    end.

(** [try: body except (ValueError, TypeError): handler] *)
Definition try_except_value_type {A} (body handler : py A) : py A :=
  fun σ =>
    match body σ with
    | (Raise ValueError, σ') => handler σ'
    | (Raise TypeError, σ') => handler σ'
    | r => r
    end.

End Stage.
Export Stage.

Declare Scope py_scope.
Delimit Scope py_scope with py.
Notation "x <- m ;; k" := (bind m (fun x => k))
  (at level 100, m at next level, right associativity) : py_scope.

Declare Scope result_scope.
Delimit Scope result_scope with res.
Notation "x <- m ;; k" := (rbind m (fun x => k))
  (at level 100, m at next level, right associativity) : result_scope.

(** [datetime.datetime.strptime(v, '%Y-%m-%d').date()] on a field value:
    anything but a string is a [TypeError]. *)
Definition strptime_value (v : value) : result Z :=
  match v with
  | VStr s => Date.strptime s
  | _ => Raise TypeError
  end.

(** [x in v] for a string [x]. *)
Definition value_contains (x : string) (v : value) : result bool :=
  match v with
  | VList l => Ok (list_contains x l)
  | VStr s => Ok (str_contains x s)
  | VDetails _ => Ok (list_contains x match_details_keys)
  | VNone | VNum _ => Raise TypeError
  end.

(** Equality of hashable values, as [set] membership uses it. *)
Definition value_eqb (v w : value) : bool :=
  match v, w with
  | VNone, VNone => true
  | VStr s, VStr t => String.eqb s t
  | VNum p, VNum q => Qeq_bool p q
  | _, _ => false
  end.

Definition hashable (v : value) : bool :=
  match v with
  | VNone | VStr _ | VNum _ => true
  | VList _ | VDetails _ => false
  end.

(** The number held by a field. *)
Definition number (v : value) : result Q :=
  match v with
  | VNum q => Ok q
  | _ => Raise TypeError
  end.

(** *** [list.sort(key=.., reverse=True)] and [sorted(.., reverse=True)]

    The keys are computed first, one per element; the sort is stable, so
    with [reverse=True] elements with equal keys keep their order.  On
    totally ordered keys every stable sort returns the same list; it is
    computed here by insertion. *)
Section Sort.
Context {A : Type}.

Fixpoint insert_desc (x : Q * A) (l : list (Q * A)) : list (Q * A) :=
  match l with
  | [] => [x]
  | y :: l' =>
      if Qle_bool (fst y) (fst x) then x :: y :: l'
      else y :: insert_desc x l'
  end.

Definition sort_desc (l : list (Q * A)) : list (Q * A) :=
  foldr insert_desc [] l.

(** [x] may stand before [y] in a descending list. *)
Definition desc (x y : Q * A) : Prop := (fst y <= fst x)%Q.

Definition key_is (q : Q) (x : Q * A) : bool := Qeq_bool (fst x) q.
End Sort.

(** [for paper in papers: body] *)
Fixpoint for_each (papers : list loc) (body : loc -> py unit) : py unit :=
  match papers with
  | [] => ret tt
  | paper :: rest => (_ <- body paper ;; for_each rest body)%py
  end.

(** The keys of the papers, from left to right. *)
Fixpoint keys_of (key : loc -> py Q) (papers : list loc) : py (list (Q * loc)) :=
  match papers with
  | [] => ret []
  | paper :: rest =>
      (k <- key paper ;;
       ks <- keys_of key rest ;;
       ret ((k, paper) :: ks))%py
  end.

Definition sorted_by_key_desc (key : loc -> py Q) (papers : list loc) : py (list loc) :=
  (ks <- keys_of key papers ;;
   ret (map snd (sort_desc ks)))%py.

(** ** [src/utils/filters.py]: class [PaperFilter] *)

Module PaperFilter.

(** The body of the [try] in [filter_by_date]: the paper is appended
    when its publication date is not before the cutoff. *)
Definition keep_if_recent (date_cutoff : Z) (paper : loc) (filtered_papers : list loc)
  : py (list loc) :=
  (v <- getitem paper "published_date" ;;
   pub_date <- lift (strptime_value v) ;;
   ret (if date_cutoff <=? pub_date then filtered_papers ++ [paper]
        else filtered_papers))%py.

Fixpoint filter_by_date_loop (date_cutoff : Z) (papers filtered_papers : list loc)
  : py (list loc) :=
  match papers with
  | [] => ret filtered_papers
  | paper :: rest =>
      (filtered_papers' <-
         try_except_value_key (keep_if_recent date_cutoff paper filtered_papers)
                              (ret filtered_papers) ;;
       filter_by_date_loop date_cutoff rest filtered_papers')%py
  end.

(** [filter_by_date(papers, days)]; [today] is
    [datetime.datetime.now().date()]. *)
Definition filter_by_date (today : Z) (papers : list loc) (days : Z) : py (list loc) :=
  (date_cutoff <- lift (Date.sub_days today days) ;;
   filter_by_date_loop date_cutoff papers [])%py.

(** [any(category in paper.get('categories', []) for category in categories)] *)
Fixpoint any_category (paper_categories : value) (categories : list string) : result bool :=
  match categories with
  | [] => Ok false
  | category :: rest =>
      (b <- value_contains category paper_categories ;;
       if b : bool then Ok true else any_category paper_categories rest)%res
  end.

Fixpoint filter_by_category_loop (categories : list string) (papers filtered_papers : list loc)
  : py (list loc) :=
  match papers with
  | [] => ret filtered_papers
  | paper :: rest =>
      (cs <- get paper "categories" (VList []) ;;
       b <- lift (any_category cs categories) ;;
       filter_by_category_loop categories rest
         (if b : bool then filtered_papers ++ [paper] else filtered_papers))%py
  end.

Definition filter_by_category (papers : list loc) (categories : list string) : py (list loc) :=
  filter_by_category_loop categories papers [].

(** [x not in seen_ids]: the identifier must be hashable. *)
Definition not_in_set (x : value) (seen_ids : list value) : result bool :=
  if hashable x then Ok (negb (existsb (value_eqb x) seen_ids)) else Raise TypeError.

Fixpoint filter_duplicates_loop (papers : list loc) (seen_ids : list value)
  (unique_papers : list loc) : py (list loc) :=
  match papers with
  | [] => ret unique_papers
  | paper :: rest =>
      (id <- getitem paper "id" ;;
       fresh <- lift (not_in_set id seen_ids) ;;
       if fresh : bool
       then filter_duplicates_loop rest (id :: seen_ids) (unique_papers ++ [paper])
       else filter_duplicates_loop rest seen_ids unique_papers)%py
  end.

Definition filter_duplicates (papers : list loc) : py (list loc) :=
  filter_duplicates_loop papers [] [].

(** [papers[:limit]]: a negative [limit] counts from the end. *)
Definition limit_papers (papers : list loc) (limit : Z) : list loc :=
  if 0 <=? limit then take (Z.to_nat limit) papers
  else take (Z.to_nat (Z.of_nat (length papers) + limit)) papers.

End PaperFilter.

(** ** [src/arxiv/parser.py]: class [ArxivParser] *)

Module ArxivParser.

(** The keyword configuration read by [__init__] from the keywords
    file. *)
Record keywords_config : Type := KeywordsConfig {
  primary_keywords : list string;
  secondary_keywords : list string;
  exclude_keywords : list string;
  author_preferences : list string;
  weight_factors : gmap string Q;
  minimum_match_score : Q
}.

(** [weight_factors[a] * weight_factors[b]] *)
Definition weight_product (wf : gmap string Q) (a b : string) : result Q :=
  match wf !! a with
  | None => Raise (KeyError a)
  | Some x =>
      match wf !! b with
      | None => Raise (KeyError b)
      | Some y => Ok (x * y)%Q
      end
  end.

(** The loop over the primary keywords, and the one over the secondary
    keywords: they differ in the weight factor [tier] and in the list
    they append to, here [matches].  [title] and [abstract] are already
    lower-cased. *)
Fixpoint keyword_matches (wf : gmap string Q) (tier : string) (title abstract : string)
  (keywords : list string) (matches : list match_entry) : result (list match_entry) :=
  match keywords with
  | [] => Ok matches
  | kw :: rest =>
      if str_contains (lower kw) title then
        (w <- weight_product wf "title_match" tier ;;
         keyword_matches wf tier title abstract rest
           (matches ++ [MatchEntry kw "title" w]))%res
      else if str_contains (lower kw) abstract then
        (w <- weight_product wf "abstract_match" tier ;;
         keyword_matches wf tier title abstract rest
           (matches ++ [MatchEntry kw "abstract" w]))%res
      else keyword_matches wf tier title abstract rest matches
  end.

Definition excluded (title abstract : string) (keywords : list string) : list string :=
  List.filter (fun kw => str_contains (lower kw) title || str_contains (lower kw) abstract)
              keywords.

(** [[a.lower() for a in paper['authors']]] *)
Definition lowered_authors (paper : dict) : result (list string) :=
  match paper !! "authors" with
  | None => Raise (KeyError "authors")
  | Some (VList l) => Ok (map lower l)
  | Some (VStr s) => Ok (map lower (chars s))
  | Some (VDetails _) => Ok (map lower match_details_keys)
  | Some (VNone | VNum _) => Raise TypeError
  end.

Fixpoint preferred_authors (paper : dict) (preferences matches : list string)
  : result (list string) :=
  match preferences with
  | [] => Ok matches
  | author :: rest =>
      (names <- lowered_authors paper ;;
       preferred_authors paper rest
         (if list_contains (lower author) names then matches ++ [author] else matches))%res
  end.

(** [paper[key].lower()] *)
Definition lowered_field (paper : dict) (key : string) : result string :=
  match paper !! key with
  | None => Raise (KeyError key)
  | Some (VStr s) => Ok (lower s)
  | Some _ => Raise AttributeError
  end.

(** [for match in matches: match_score += match['weight']] *)
Definition add_weights (match_score : Q) (matches : list match_entry) : Q :=
  fold_left (fun s m => (s + weight m)%Q) matches match_score.

Definition author_bonus : Q := 1.
Definition exclusion_penalty : Q := 2.

Definition match_score_of (d : match_details) : Q :=
  let s := add_weights 0 (primary_matches d) in
  let s := add_weights s (secondary_matches d) in
  let s := if author_matches d is [] then s else (s + author_bonus)%Q in
  if excluded_matches d is [] then s else (s - exclusion_penalty)%Q.

Definition match_keywords (cfg : keywords_config) (paper : dict)
  : result (Q * match_details) :=
  (title <- lowered_field paper "title" ;;
   abstract <- lowered_field paper "abstract" ;;
   primary <- keyword_matches (weight_factors cfg) "primary_keyword_match"
                title abstract (primary_keywords cfg) [] ;;
   secondary <- keyword_matches (weight_factors cfg) "secondary_keyword_match"
                  title abstract (secondary_keywords cfg) [] ;;
   authors <- preferred_authors paper (author_preferences cfg) [] ;;
   let d := MatchDetails primary secondary
              (excluded title abstract (exclude_keywords cfg)) authors in
   Ok (match_score_of d, d))%res.

(** The scoring loop of [filter_papers_by_keywords]: a paper that
    reaches the minimum score has the score and the details written into
    it and is appended. *)
Fixpoint score_loop (cfg : keywords_config) (papers filtered_papers : list loc)
  : py (list loc) :=
  match papers with
  | [] => ret filtered_papers
  | paper :: rest =>
      fun σ =>
        match match_keywords cfg (σ paper) with
        | Raise e => (Raise e, σ)
        | Ok (match_score, details) =>
            if Qle_bool (minimum_match_score cfg) match_score then
              (_ <- setitem paper "match_score" (VNum match_score) ;;
               _ <- setitem paper "match_details" (VDetails details) ;;
               score_loop cfg rest (filtered_papers ++ [paper]))%py σ
            else score_loop cfg rest filtered_papers σ
        end
  end.

Definition match_score_key (paper : loc) : py Q :=
  (v <- getitem paper "match_score" ;; lift (number v))%py.

Definition filter_papers_by_keywords (cfg : keywords_config) (papers : list loc)
  : py (list loc) :=
  (filtered_papers <- score_loop cfg papers [] ;;
   sorted_by_key_desc match_score_key filtered_papers)%py.

(** *** [extract_key_findings] *)

(** The characters [\s] matches and [str.strip] removes. *)
Definition isspace (c : ascii) : bool :=
  let n := N_of_ascii c in
  (((9 <=? n) && (n <=? 13)) || ((28 <=? n) && (n <=? 32)))%N.

Definition isupper (c : ascii) : bool :=
  let n := N_of_ascii c in ((65 <=? n) && (n <=? 90))%N.

Definition islower (c : ascii) : bool :=
  let n := N_of_ascii c in ((97 <=? n) && (n <=? 122))%N.

(** The characters [\w] matches. *)
Definition isword (c : ascii) : bool :=
  let n := N_of_ascii c in
  (((48 <=? n) && (n <=? 57)) || (n =? 95))%N || isupper c || islower c.

Definition full_stop : ascii := "."%char.
Definition question_mark : ascii := "?"%char.
Definition newline : ascii := "010"%char.

(** The three assertions of the pattern
    [(?<!\w\.\w.)(?<![A-Z][a-z]\.)(?<=\.|\?)\s] on the text before the
    position, the last character first. *)
Definition after_initials (before : list ascii) : bool :=
  match before with
  | c1 :: c2 :: c3 :: c4 :: _ =>
      negb (Ascii.eqb c1 newline) && isword c2 && Ascii.eqb c3 full_stop && isword c4
  | _ => false
  end.

Definition after_title (before : list ascii) : bool :=
  match before with
  | c1 :: c2 :: c3 :: _ => Ascii.eqb c1 full_stop && islower c2 && isupper c3
  | _ => false
  end.

Definition after_stop (before : list ascii) : bool :=
  match before with
  | c1 :: _ => Ascii.eqb c1 full_stop || Ascii.eqb c1 question_mark
  | [] => false
  end.

(** The pattern matches the character [c] that follows [before]. *)
Definition sentence_break (before : list ascii) (c : ascii) : bool :=
  negb (after_initials before) && negb (after_title before) && after_stop before &&
  isspace c.

(** [re.split] with that pattern: [current] is the piece being read,
    [before] all the text read, reversed. *)
Fixpoint split_from (before : list ascii) (current rest : string) : list string :=
  match rest with
  | EmptyString => [current]
  | String c rest' =>
      if sentence_break before c
      then current :: split_from (c :: before) EmptyString rest'
      else split_from (c :: before) (String.append current (String c EmptyString)) rest'
  end.

Definition split_sentences (abstract : string) : list string :=
  split_from [] EmptyString abstract.

(** [str.strip] *)
Fixpoint lstrip (s : string) : string :=
  match s with
  | EmptyString => EmptyString
  | String c s' => if isspace c then lstrip s' else s
  end.

Fixpoint rstrip (s : string) : string :=
  match s with
  | EmptyString => EmptyString
  | String c s' =>
      match rstrip s' with
      | EmptyString => if isspace c then EmptyString else String c EmptyString
      | r => String c r
      end
  end.

Definition strip (s : string) : string := rstrip (lstrip s).

Definition indicator_phrases : list string :=
  ["we propose"; "we present"; "we introduce"; "we develop";
   "results show"; "our approach"; "our method"; "we demonstrate";
   "we achieve"; "we show"; "outperforms"; "state-of-the-art";
   "contribution"; "novel"; "new"]%string.

(** The inner loop: some phrase is in the sentence. *)
Definition has_indicator (sentence : string) : bool :=
  existsb (fun phrase => str_contains (lower phrase) (lower sentence)) indicator_phrases.

(** [l[-k]], for [k] from 1 to [len(l)]. *)
Definition from_end (k : nat) (l : list string) : string :=
  nth (length l - k) l EmptyString.

Definition extract_key_findings (abstract : string) : list string :=
  let sentences := split_sentences abstract in
  let key_findings := map strip (List.filter has_indicator sentences) in
  match key_findings with
  | [] =>
      if (1 <? length sentences)%nat
      then [strip (from_end 2 sentences); strip (from_end 1 sentences)]
      else match sentences with
           | [] => []
           | _ => [strip (from_end 1 sentences)]
           end
  | _ => key_findings
  end.

(** *** [enrich_paper_data] *)

(** [re.split] on the abstract needs text. *)
Definition sentences_source (v : value) : result string :=
  match v with
  | VStr s => Ok s
  | _ => Raise TypeError
  end.

(** [f"{authors[0]} et al."] when there are more than three authors,
    [", ".join(authors)] otherwise. *)
Definition format_names (names : list string) : string :=
  if (3 <? length names)%nat
  then String.append (hd EmptyString names) " et al."
  else String.concat ", " names.

Definition formatted_authors (v : value) : result string :=
  match v with
  | VList l => Ok (format_names l)
  | VStr s => Ok (format_names (chars s))
  | VDetails _ => Raise (KeyError "0")
  | VNone | VNum _ => Raise TypeError
  end.

(** [s.split('.')]: [current] is the piece being read. *)
Fixpoint split_dot_from (current rest : string) : list string :=
  match rest with
  | EmptyString => [current]
  | String c rest' =>
      if Ascii.eqb c full_stop
      then current :: split_dot_from EmptyString rest'
      else split_dot_from (String.append current (String c EmptyString)) rest'
  end.

Definition split_dot (s : string) : list string := split_dot_from EmptyString s.

(** [paper['id'].split] needs text. *)
Definition split_source (v : value) : result string :=
  match v with
  | VStr s => Ok s
  | _ => Raise AttributeError
  end.

(** [id.split('.')[-1]] *)
Definition short_id (id : string) : string := from_end 1 (split_dot id).

Definition arxiv_url (id : string) : string :=
  String.append "https://arxiv.org/abs/" id.

(** The paper is enriched in place and handed back. *)
Definition enrich_paper_data (paper : loc) : py loc :=
  (abstract <- getitem paper "abstract" ;;
   text <- lift (sentences_source abstract) ;;
   _ <- setitem paper "key_findings" (VList (extract_key_findings text)) ;;
   authors <- getitem paper "authors" ;;
   names <- lift (formatted_authors authors) ;;
   _ <- setitem paper "formatted_authors" (VStr names) ;;
   v <- getitem paper "id" ;;
   id <- lift (split_source v) ;;
   _ <- setitem paper "short_id" (VStr (short_id id)) ;;
   _ <- setitem paper "arxiv_url" (VStr (arxiv_url id)) ;;
   ret paper)%py.


End ArxivParser.

(** ** [src/utils/citation.py]: class [CitationAnalyzer] *)

Module CitationAnalyzer.

(** [citation_count / days_since_pub] *)
Definition divide (citation_count : value) (days_since_pub : Z) : result Q :=
  (c <- number citation_count ;; Ok (c / inject_Z days_since_pub)%Q)%res.

(** The body of the [try] in [calculate_citation_velocity]. *)
Definition set_velocity (today : Z) (paper : loc) : py unit :=
  (d <- getitem paper "published_date" ;;
   pub_date <- lift (strptime_value d) ;;
   let days_since_pub := Z.max 1 (today - pub_date) in
   c <- getitem paper "citation_count" ;;
   v <- lift (divide c days_since_pub) ;;
   setitem paper "citation_velocity" (VNum v))%py.

(** The body of the loop of [calculate_citation_velocity]. *)
Definition velocity_turn (today : Z) (paper : loc) : py unit :=
  (has_count <- has_key paper "citation_count" ;;
   has_date <- has_key paper "published_date" ;;
   if (has_count : bool) && (has_date : bool)
   then try_except_value_type (set_velocity today paper)
                              (setitem paper "citation_velocity" (VNum 0))
   else setitem paper "citation_velocity" (VNum 0))%py.

(** The list returned is the list received. *)
Definition calculate_citation_velocity (today : Z) (papers : list loc) : py (list loc) :=
  (_ <- for_each papers (velocity_turn today) ;; ret papers)%py.

(** [(0.7 * citation_count) + (0.3 * citation_velocity * 10)] *)
Definition impact (citation_count citation_velocity : value) : result Q :=
  (c <- number citation_count ;;
   v <- number citation_velocity ;;
   Ok ((7 # 10) * c + (3 # 10) * v * 10)%Q)%res.

(** The body of the loop of [rank_papers_by_impact]. *)
Definition impact_turn (paper : loc) : py unit :=
  (citation_count <- get paper "citation_count" (VNum 0) ;;
   citation_velocity <- get paper "citation_velocity" (VNum 0) ;;
   s <- lift (impact citation_count citation_velocity) ;;
   setitem paper "impact_score" (VNum s))%py.

Definition impact_score_key (paper : loc) : py Q :=
  (v <- get paper "impact_score" (VNum 0) ;; lift (number v))%py.

Definition rank_papers_by_impact (today : Z) (papers : list loc) : py (list loc) :=
  (papers_with_velocity <- calculate_citation_velocity today papers ;;
   _ <- for_each papers_with_velocity impact_turn ;;
   sorted_by_key_desc impact_score_key papers_with_velocity)%py.

(** *** [identify_highly_cited_papers] *)

(** [paper.get('citation_count', 0) >= min_citations_for_highlight] *)
Definition at_least (citation_count : value) (min_citations : Q) : result bool :=
  (c <- number citation_count ;; Ok (Qle_bool min_citations c))%res.

Fixpoint highly_cited_loop (min_citations : Q) (papers highly_cited : list loc)
  : py (list loc) :=
  match papers with
  | [] => ret highly_cited
  | paper :: rest =>
      (c <- get paper "citation_count" (VNum 0) ;;
       b <- lift (at_least c min_citations) ;;
       highly_cited_loop min_citations rest
         (if b : bool then highly_cited ++ [paper] else highly_cited))%py
  end.

Definition citation_count_key (paper : loc) : py Q :=
  (v <- get paper "citation_count" (VNum 0) ;; lift (number v))%py.

Definition identify_highly_cited_papers (min_citations_for_highlight : Q)
  (papers : list loc) : py (list loc) :=
  (highly_cited <- highly_cited_loop min_citations_for_highlight papers [] ;;
   sorted_by_key_desc citation_count_key highly_cited)%py.


End CitationAnalyzer.

(** ** [scripts/run_daily_report.py]: the selection steps of [main] *)

Module Report.

(** What [main] reads from the configuration file for the selection. *)
Record config : Type := Config {
  recent_days : Z;
  categories : list string;
  max_papers : Z
}.

(** Steps 2, 3, 4, the deduplication and step 7 of [main], applied to the
    papers fetched in step 1. *)
Definition selected_papers (today : Z) (cfg : config)
  (kw : ArxivParser.keywords_config) (recent_papers : list loc) : py (list loc) :=
  (recent_papers <- PaperFilter.filter_by_date today recent_papers (recent_days cfg) ;;
   recent_papers <- PaperFilter.filter_by_category recent_papers (categories cfg) ;;
   keyword_matched_papers <- ArxivParser.filter_papers_by_keywords kw recent_papers ;;
   combined_papers <- PaperFilter.filter_duplicates keyword_matched_papers ;;
   ret (PaperFilter.limit_papers combined_papers (max_papers cfg)))%py.

End Report.

(** ** Vocabulary of the statements *)

Definition is_text (o : option value) : bool :=
  match o with Some (VStr _) => true | _ => false end.

Definition is_list (o : option value) : bool :=
  match o with Some (VList _) => true | _ => false end.

Definition text_or_absent (o : option value) : bool :=
  match o with None | Some (VStr _) => true | _ => false end.

Definition list_or_absent (o : option value) : bool :=
  match o with None | Some (VList _) => true | _ => false end.

Definition number_or_absent (o : option value) : bool :=
  match o with None | Some (VNum _) => true | _ => false end.

(** A paper that [match_keywords] can score: the title and the abstract
    are text and the authors are a list of names. *)
Definition scorable (paper : dict) : bool :=
  is_text (paper !! "title") && is_text (paper !! "abstract") &&
  is_list (paper !! "authors").

(** A candidate as the pipeline expects it: scorable, with a textual
    identifier; the publication date, when present, is text and the
    categories, when present, are a list. *)
Definition candidate (paper : dict) : bool :=
  scorable paper && is_text (paper !! "id") &&
  text_or_absent (paper !! "published_date") &&
  list_or_absent (paper !! "categories").

(** The four weight factors that [match_keywords] reads. *)
Definition weight_keys : list string :=
  ["title_match"; "abstract_match"; "primary_keyword_match"; "secondary_keyword_match"].

Definition weights_ok (wf : gmap string Q) : bool :=
  forallb (fun k => bool_decide (is_Some (wf !! k))) weight_keys.

(** The publication date of a paper, when the field holds a date in the
    format [%Y-%m-%d]. *)
Definition published (paper : dict) : option Z :=
  match paper !! "published_date" with
  | Some (VStr s) =>
      match Date.strptime s with
      | Ok d => Some d
      | Raise _ => None
      end
  | _ => None
  end.

Definition in_window (date_cutoff : Z) (paper : dict) : bool :=
  match published paper with
  | Some d => date_cutoff <=? d
  | None => false
  end.

(** The paper has one of the categories. *)
Definition shares_category (categories : list string) (paper : dict) : bool :=
  match paper !! "categories" with
  | Some (VList cs) => existsb (fun c => list_contains c cs) categories
  | _ => false
  end.

(** The score [match_keywords] gives a paper. *)
Definition score (cfg : ArxivParser.keywords_config) (paper : dict) : Q :=
  match ArxivParser.match_keywords cfg paper with
  | Ok (s, _) => s
  | Raise _ => 0
  end.

Definition qualifies (cfg : ArxivParser.keywords_config) (paper : dict) : bool :=
  Qle_bool (ArxivParser.minimum_match_score cfg) (score cfg paper).

(** The sum of the weights of a list of hits. *)
Definition total_weight (hits : list match_entry) : Q :=
  foldr (fun e s => (weight e + s)%Q) 0%Q hits.

(** The keyword [kw] is found in the title or else in the abstract. *)
Definition found (title abstract kw : string) : bool :=
  str_contains (lower kw) title || str_contains (lower kw) abstract.

(** A well-formed hit for the weight factor [tier]: found in the title,
    or not in the title but in the abstract, with the weight of the
    place. *)
Definition hit (wf : gmap string Q) (tier title abstract : string) (e : match_entry) : Prop :=
  (location e = "title" /\
   str_contains (lower (keyword e)) title = true /\
   exists x z, wf !! "title_match" = Some x /\ wf !! tier = Some z /\
               weight e = (x * z)%Q)
  \/
  (location e = "abstract" /\
   str_contains (lower (keyword e)) title = false /\
   str_contains (lower (keyword e)) abstract = true /\
   exists y z, wf !! "abstract_match" = Some y /\ wf !! tier = Some z /\
               weight e = (y * z)%Q).

(** The hits of a keyword list when the title weight is [x], the
    abstract weight [y] and the tier weight [z]. *)
Definition hits (x y z : Q) (title abstract : string) (keywords : list string)
  : list match_entry :=
  flat_map (fun kw =>
              if str_contains (lower kw) title then [MatchEntry kw "title" (x * z)%Q]
              else if str_contains (lower kw) abstract then [MatchEntry kw "abstract" (y * z)%Q]
              else [])
           keywords.

(** The preferred authors among the names of a paper. *)
Definition preferred (names preferences : list string) : list string :=
  List.filter (fun a => list_contains (lower a) (map lower names)) preferences.

(** The configuration with other exclude keywords, and with other weight
    factors. *)
Definition with_exclude (cfg : ArxivParser.keywords_config) (ex : list string)
  : ArxivParser.keywords_config :=
  ArxivParser.KeywordsConfig
    (ArxivParser.primary_keywords cfg) (ArxivParser.secondary_keywords cfg) ex
    (ArxivParser.author_preferences cfg) (ArxivParser.weight_factors cfg)
    (ArxivParser.minimum_match_score cfg).

Definition with_weights (cfg : ArxivParser.keywords_config) (wf : gmap string Q)
  : ArxivParser.keywords_config :=
  ArxivParser.KeywordsConfig
    (ArxivParser.primary_keywords cfg) (ArxivParser.secondary_keywords cfg)
    (ArxivParser.exclude_keywords cfg)
    (ArxivParser.author_preferences cfg) wf
    (ArxivParser.minimum_match_score cfg).

(** The paper with another title. *)
Definition with_title (paper : dict) (title : string) : dict :=
  <["title" := VStr title]> paper.

(** [match_keywords] returns a score for the paper. *)
Definition can_score (cfg : ArxivParser.keywords_config) (paper : dict) : bool :=
  match ArxivParser.match_keywords cfg paper with
  | Ok _ => true
  | Raise _ => false
  end.

(** The paper after [filter_papers_by_keywords] has written the score
    and the details into it. *)
Definition scored (cfg : ArxivParser.keywords_config) (paper : dict) : dict :=
  match ArxivParser.match_keywords cfg paper with
  | Ok (s, d) => <["match_details" := VDetails d]> (<["match_score" := VNum s]> paper)
  | Raise _ => paper
  end.

(** While the scoring loop runs on the store [σ], a paper is as it was
    or has been scored. *)
Definition touched (cfg : ArxivParser.keywords_config) (σ σi : heap) : Prop :=
  forall p, σi p = σ p \/ σi p = scored cfg (σ p).

(** The papers in descending order of [sc], stably. *)
Definition ranked (sc : loc -> Q) (papers : list loc) : list loc :=
  map snd (sort_desc (map (fun p => (sc p, p)) papers)).

(** [p] may stand before [q] when ordered by [sc], descending. *)
Definition before (sc : loc -> Q) (p q : loc) : Prop := (sc q <= sc p)%Q.

(** The identifier of a paper. *)
Definition ident (paper : dict) : string :=
  match paper !! "id" with
  | Some (VStr i) => i
  | _ => ""
  end.

(** The first paper of each identifier, the identifiers in [seen]
    excepted. *)
Fixpoint first_by_id (id : loc -> string) (seen : list string) (papers : list loc)
  : list loc :=
  match papers with
  | [] => []
  | p :: rest =>
      if list_contains (id p) seen then first_by_id id seen rest
      else p :: first_by_id id (id p :: seen) rest
  end.

(** The citation count of a paper, 0 when it has none. *)
Definition citations (paper : dict) : Q :=
  match paper !! "citation_count" with
  | Some (VNum c) => c
  | _ => 0
  end.

(** Citations per day since publication, the days at least 1; 0 for a
    paper without a citation count or without a publication date. *)
Definition velocity (today : Z) (paper : dict) : Q :=
  match paper !! "citation_count", published paper with
  | Some (VNum c), Some d => (c / inject_Z (Z.max 1 (today - d)))%Q
  | _, _ => 0
  end.

Definition impact_score (today : Z) (paper : dict) : Q :=
  ((7 # 10) * citations paper + (3 # 10) * velocity today paper * 10)%Q.

Definition with_velocity (today : Z) (paper : dict) : dict :=
  <["citation_velocity" := VNum (velocity today paper)]> paper.

(** The impact score computed from the fields of a paper. *)
Definition stored_velocity (paper : dict) : Q :=
  match paper !! "citation_velocity" with
  | Some (VNum v) => v
  | _ => 0
  end.

Definition impact_of_fields (paper : dict) : Q :=
  ((7 # 10) * citations paper + (3 # 10) * stored_velocity paper * 10)%Q.

Definition with_impact_of_fields (paper : dict) : dict :=
  <["impact_score" := VNum (impact_of_fields paper)]> paper.

(** The paper as [rank_papers_by_impact] leaves it. *)
Definition with_impact (today : Z) (paper : dict) : dict :=
  <["impact_score" := VNum (impact_score today paper)]> (with_velocity today paper).

(** The fields [impact_turn] needs: a citation count that is a number
    when present, and a velocity that is a number. *)
Definition has_velocity (paper : dict) : Prop :=
  number_or_absent (paper !! "citation_count") = true /\
  exists v, paper !! "citation_velocity" = Some (VNum v).

(** From the store [σ] to the store [σ'], only the fields [keys] of the
    papers [papers] may have been written. *)
Definition writes_only (keys : list string) (papers : list loc) (σ σ' : heap) : Prop :=
  (forall p k, ~ In k keys -> σ' p !! k = σ p !! k) /\
  (forall p, ~ In p papers -> σ' p = σ p).

(** A paper the selection may keep: published within the window, in
    one of the categories, with a score that reaches the minimum. *)
Definition eligible (date_cutoff : Z) (categories : list string)
  (kw : ArxivParser.keywords_config) (paper : dict) : bool :=
  in_window date_cutoff paper && shares_category categories paper && qualifies kw paper.

(** The number of different identifiers in a list. *)
Definition distinct (ids : list string) : nat :=
  size (list_to_set ids : gset string).

(** ** Concrete papers and configurations *)

Module Examples.

Definition paper (id title abstract date : string) (authors categories : list string) : dict :=
  <["id" := VStr id]>
    (<["title" := VStr title]>
       (<["abstract" := VStr abstract]>
          (<["authors" := VList authors]>
             (<["published_date" := VStr date]>
                (<["categories" := VList categories]> ∅))))).

Definition weights (title abstract primary secondary : Q) : gmap string Q :=
  <["title_match" := title]>
    (<["abstract_match" := abstract]>
       (<["primary_keyword_match" := primary]>
          (<["secondary_keyword_match" := secondary]> ∅))).

(** The example taxonomy of the specification: title 1.0, abstract 0.5,
    primary 2.0, secondary 1.0, minimum score 1.5. *)
Definition taxonomy : ArxivParser.keywords_config :=
  ArxivParser.KeywordsConfig
    ["diffusion model"] ["transformer"] ["survey"; "review"] ["Ada Lovelace"]
    (weights 1 (1 # 2) 2 1) (3 # 2).

(** 2024-01-10 *)
Definition today : Z := 738895.

Definition paper_a : dict :=
  paper "2501.00001" "A Diffusion Model for Grasping" "We plan grasps."
        "2024-01-09" ["Ada Lovelace"; "Alan Turing"] ["cs.RO"].

Definition paper_b : dict :=
  paper "2501.00002" "Attention in Robots" "A transformer for control."
        "2024-01-10" ["Grace Hopper"] ["cs.RO"; "cs.LG"].

(** A survey: two exclude keywords match. *)
Definition paper_c : dict :=
  paper "2501.00003" "Diffusion Model Planning: a Survey and Review"
        "We review each diffusion model." "2024-01-08" ["Alan Turing"] ["cs.AI"].

(** Dated the day after [today]. *)
Definition paper_future : dict :=
  paper "2501.00004" "Diffusion Model Control" "Control." "2024-01-11"
        ["Alan Turing"] ["cs.RO"].

(** No title. *)
Definition paper_untitled : dict := delete "title" paper_a.

(** No publication date, and a date that is not one. *)
Definition paper_undated : dict := delete "published_date" paper_a.
Definition paper_baddate : dict := <["published_date" := VStr "2024-02-30"]> paper_a.

(** A weight table in which the abstract counts more than the title. *)
Definition abstract_heavy : ArxivParser.keywords_config :=
  ArxivParser.KeywordsConfig ["slam"] [] [] [] (weights (1 # 2) 1 1 1) 0.

Definition paper_slam : dict :=
  paper "2501.00005" "Mapping" "we use slam" "2024-01-10" ["Alan Turing"] ["cs.RO"].

(** [paper_a] with ten citations. *)
Definition paper_cited : dict := <["citation_count" := VNum 10]> paper_a.

(** A store: reference [n] denotes the [n]-th paper of the list, the
    references past the end the empty dictionary. *)
Definition store (papers : list dict) : heap :=
  fun l => default ∅ (papers !! l).

End Examples.
(** ** Further vocabulary *)

(** The field is present and is neither text nor a collection. *)
Definition not_a_container (o : option value) : bool :=
  match o with
  | Some VNone | Some (VNum _) => true
  | _ => false
  end.

(** The field is present and is not text. *)
Definition present_not_text (o : option value) : bool :=
  match o with
  | None | Some (VStr _) => false
  | Some _ => true
  end.

(** The field is present and is not a number. *)
Definition present_not_number (o : option value) : bool :=
  match o with
  | None | Some (VNum _) => false
  | Some _ => true
  end.

(** The date [today - days] exists. *)
Definition cutoff_exists (today days : Z) : bool :=
  (Z.abs days <=? Date.MAXDELTADAYS) && (1 <=? today - days) &&
  (today - days <=? Date.MAXORDINAL).

(** The pieces of a text put together again, with one separator
    between two pieces. *)
Fixpoint interleave (pieces : list string) (seps : list ascii) : string :=
  match pieces with
  | [] => EmptyString
  | p :: ps =>
      match seps with
      | [] => p
      | c :: cs => String.append p (String c (interleave ps cs))
      end
  end.

(** The text has no character [c]. *)
Fixpoint without (c : ascii) (s : string) : bool :=
  match s with
  | EmptyString => true
  | String a s' => negb (Ascii.eqb a c) && without c s'
  end.

(** The text does not begin or end with white space. *)
Definition trimmed (s : string) : Prop :=
  ArxivParser.lstrip s = s /\ ArxivParser.rstrip s = s.

(** The fields [enrich_paper_data] writes. *)
Definition enrich_keys : list string :=
  ["key_findings"; "formatted_authors"; "short_id"; "arxiv_url"].

(** The paper has at least [min_citations] citations, none counting
    as 0. *)
Definition cited (min_citations : Q) (paper : dict) : bool :=
  Qle_bool min_citations (citations paper).

Module MoreExamples.

(** Two papers with the identifier of [paper_a]'s, one without
    categories, one whose categories are [None]. *)
Definition paper_a_again : dict :=
  <["title" := VStr "Another Title"]> Examples.paper_a.
Definition paper_uncategorised : dict := delete "categories" Examples.paper_a.
Definition paper_null_categories : dict := <["categories" := VNone]> Examples.paper_a.
Definition paper_null_date : dict := <["published_date" := VNone]> Examples.paper_a.
Definition paper_null_citations : dict := <["citation_count" := VNone]> Examples.paper_a.
Definition paper_no_authors : dict := delete "authors" Examples.paper_a.

(** [paper_b] with three citations. *)
Definition paper_b_cited : dict := <["citation_count" := VNum 3]> Examples.paper_b.

Definition abstract : string :=
  "Dr. Who et al. study maps. We propose a new method. It works? Yes.".

End MoreExamples.

(** * Properties *)

(** ** The stable descending sort *)

Section SortFacts.
Context {A : Type}.
Implicit Types (x y : Q * A) (l : list (Q * A)).

Lemma insert_desc_perm x l : Permutation (insert_desc x l) (x :: l).
Proof.
  induction l as [|y l IH]; simpl; [reflexivity|].
  destruct (Qle_bool (fst y) (fst x)); [reflexivity|].
  rewrite IH. apply perm_swap.
Qed.

Lemma sort_desc_perm l : Permutation (sort_desc l) l.
Proof.
  induction l as [|x l IH]; simpl; [reflexivity|].
  rewrite insert_desc_perm. now apply perm_skip.
Qed.

Lemma Qle_bool_false (p q : Q) : Qle_bool p q = false -> (q < p)%Q.
Proof.
  intros H. apply Qnot_le_lt. intros Hle.
  apply Qle_bool_iff in Hle. congruence.
Qed.

Lemma insert_desc_sorted x l :
  StronglySorted desc l -> StronglySorted desc (insert_desc x l).
Proof.
  induction 1 as [|y l Hl IH Hy]; simpl.
  - repeat constructor.
  - destruct (Qle_bool (fst y) (fst x)) eqn:E.
    + apply Qle_bool_iff in E.
      constructor; [now constructor|].
      constructor; [exact E|].
      eapply List.Forall_impl; [|exact Hy].
      intros z Hz. unfold desc in *. eapply Qle_trans; eassumption.
    + apply Qle_bool_false in E.
      constructor; [exact IH|].
      eapply Permutation_Forall; [symmetry; apply insert_desc_perm|].
      constructor; [|exact Hy].
      unfold desc. now apply Qlt_le_weak.
Qed.

Lemma sort_desc_sorted l : StronglySorted desc (sort_desc l).
Proof.
  induction l as [|x l IH]; simpl; [constructor|].
  now apply insert_desc_sorted.
Qed.

(** Stability: among the elements with one key, the order is the
    original one. *)
Lemma insert_desc_stable q x l :
  List.filter (key_is q) (insert_desc x l) = List.filter (key_is q) (x :: l).
Proof.
  induction l as [|y l IH]; [reflexivity|].
  cbn [insert_desc].
  destruct (Qle_bool (fst y) (fst x)) eqn:E; [reflexivity|].
  apply Qle_bool_false in E.
  cbn [List.filter] in *. rewrite IH.
  destruct (key_is q x) eqn:Hx, (key_is q y) eqn:Hy; try reflexivity.
  unfold key_is in *. apply Qeq_bool_iff in Hx, Hy.
  rewrite Hx, Hy in E. now apply Qlt_irrefl in E.
Qed.

Lemma sort_desc_stable q l :
  List.filter (key_is q) (sort_desc l) = List.filter (key_is q) l.
Proof.
  induction l as [|x l IH]; [reflexivity|].
  cbn [sort_desc foldr]. fold (sort_desc l).
  rewrite insert_desc_stable. cbn [List.filter]. now rewrite IH.
Qed.

Lemma key_is_self x : key_is (fst x) x = true.
Proof. unfold key_is. apply Qeq_bool_iff. reflexivity. Qed.

Lemma filter_key_In q x l : In x (List.filter (key_is q) l) -> In x l.
Proof. intros H. now apply filter_In in H. Qed.

(** Two descending lists with the same elements of every key, in the
    same order, are equal. *)
Lemma stable_sorted_unique l1 :
  forall l2,
    StronglySorted desc l1 -> StronglySorted desc l2 ->
    (forall q, List.filter (key_is q) l1 = List.filter (key_is q) l2) ->
    l1 = l2.
Proof.
  induction l1 as [|x l1 IH]; intros l2 Hs1 Hs2 Hq.
  - destruct l2 as [|y l2]; [reflexivity|].
    specialize (Hq (fst y)). cbn in Hq. now rewrite key_is_self in Hq.
  - destruct l2 as [|y l2].
    { specialize (Hq (fst x)). cbn in Hq. now rewrite key_is_self in Hq. }
    inversion Hs1 as [|? ? Hs1' Hx]; subst. inversion Hs2 as [|? ? Hs2' Hy]; subst.
    assert (E : x = y).
    { pose proof (Hq (fst x)) as Ex. cbn in Ex. rewrite key_is_self in Ex.
      destruct (key_is (fst x) y) eqn:Kxy; [congruence|].
      pose proof (Hq (fst y)) as Ey. cbn in Ey. rewrite key_is_self in Ey.
      assert (Kyx : key_is (fst y) x = false).
      { unfold key_is in *. destruct (Qeq_bool (fst x) (fst y)) eqn:K; [|reflexivity].
        apply Qeq_bool_iff in K. symmetry in K. apply Qeq_bool_iff in K. congruence. }
      rewrite Kyx in Ey.
      assert (Hx2 : In x l2) by (apply (filter_key_In (fst x)); rewrite <- Ex; now left).
      assert (Hy1 : In y l1) by (apply (filter_key_In (fst y)); rewrite Ey; now left).
      rewrite List.Forall_forall in Hx, Hy.
      pose proof (Hx y Hy1) as H1. pose proof (Hy x Hx2) as H2. unfold desc in H1, H2.
      assert (K : (fst y == fst x)%Q) by now apply Qle_antisym.
      apply Qeq_bool_iff in K. unfold key_is in Kxy. congruence. }
    subst y. f_equal. apply IH; [assumption | assumption |].
    intros q. specialize (Hq q). cbn in Hq.
    destruct (key_is q x); congruence.
Qed.

(** So [sort_desc] is the only stable descending sort: whatever
    algorithm the runtime uses, that is its result. *)
Lemma sort_desc_unique l out :
  StronglySorted desc out ->
  (forall q, List.filter (key_is q) out = List.filter (key_is q) l) ->
  out = sort_desc l.
Proof.
  intros Hs Hq. apply stable_sorted_unique; [exact Hs | apply sort_desc_sorted |].
  intros q. now rewrite Hq, sort_desc_stable.
Qed.
End SortFacts.

(** ** The keyword scorer *)

Section Scorer.
Import ArxivParser.
Implicit Types (wf : gmap string Q) (paper : dict) (cfg : keywords_config).

Lemma weight_product_ok wf a b x z :
  wf !! a = Some x -> wf !! b = Some z -> weight_product wf a b = Ok (x * z)%Q.
Proof. intros Ha Hb. unfold weight_product. now rewrite Ha, Hb. Qed.

Lemma weight_product_inv wf a b w :
  weight_product wf a b = Ok w ->
  exists x z, wf !! a = Some x /\ wf !! b = Some z /\ w = (x * z)%Q.
Proof.
  unfold weight_product.
  destruct (wf !! a) as [x|]; [|discriminate].
  destruct (wf !! b) as [z|]; [|discriminate].
  intros [= <-]. now exists x, z.
Qed.

Lemma keyword_matches_inv wf tier title abstract keywords :
  forall matches r,
    keyword_matches wf tier title abstract keywords matches = Ok r ->
    exists r', r = matches ++ r' /\
               Forall (hit wf tier title abstract) r' /\
               map keyword r' = List.filter (found title abstract) keywords.
Proof.
  induction keywords as [|kw rest IH]; intros matches r; cbn [keyword_matches].
  - intros [= <-]. exists []. now rewrite app_nil_r.
  - unfold found at 1. cbn [List.filter]. fold (found title abstract).
    destruct (str_contains (lower kw) title) eqn:Ht; cbn [orb].
    + destruct (weight_product wf "title_match" tier) as [w|] eqn:Hw; [|discriminate].
      cbn [rbind]. intros H. apply IH in H as (r' & -> & Hall & Hk).
      apply weight_product_inv in Hw as (x & z & Hx & Hz & ->).
      exists (MatchEntry kw "title" (x * z)%Q :: r'). rewrite <- app_assoc.
      split; [reflexivity|]. split; [|cbn; now rewrite Hk].
      constructor; [|exact Hall]. left. cbn. split; [reflexivity|]. split; [exact Ht|]. now exists x, z.
    + destruct (str_contains (lower kw) abstract) eqn:Ha.
      * destruct (weight_product wf "abstract_match" tier) as [w|] eqn:Hw; [|discriminate].
        cbn [rbind]. intros H. apply IH in H as (r' & -> & Hall & Hk).
        apply weight_product_inv in Hw as (y & z & Hy & Hz & ->).
        exists (MatchEntry kw "abstract" (y * z)%Q :: r'). rewrite <- app_assoc.
        split; [reflexivity|]. split; [|cbn; now rewrite Hk].
        constructor; [|exact Hall]. right. cbn. split; [reflexivity|]. split; [exact Ht|]. split; [exact Ha|]. now exists y, z.
      * apply IH.
Qed.

Lemma keyword_matches_hits wf tier title abstract x y z keywords :
  wf !! "title_match" = Some x -> wf !! "abstract_match" = Some y ->
  wf !! tier = Some z ->
  forall matches,
    keyword_matches wf tier title abstract keywords matches
    = Ok (matches ++ hits x y z title abstract keywords).
Proof.
  intros Hx Hy Hz.
  induction keywords as [|kw rest IH]; intros matches; cbn [keyword_matches].
  - unfold hits. cbn. now rewrite app_nil_r.
  - unfold hits. cbn [flat_map]. fold (hits x y z title abstract rest).
    destruct (str_contains (lower kw) title).
    + rewrite (weight_product_ok _ _ _ _ _ Hx Hz). cbn [rbind].
      rewrite IH, <- app_assoc. reflexivity.
    + destruct (str_contains (lower kw) abstract).
      * rewrite (weight_product_ok _ _ _ _ _ Hy Hz). cbn [rbind].
        rewrite IH, <- app_assoc. reflexivity.
      * apply IH.
Qed.

Lemma add_weights_total (s : Q) (l : list match_entry) :
  (add_weights s l == s + total_weight l)%Q.
Proof.
  revert s. induction l as [|e l IH]; intros s; cbn.
  - ring.
  - unfold add_weights in IH. rewrite IH. fold (total_weight l). ring.
Qed.

Lemma match_score_of_sum (d : match_details) :
  (match_score_of d ==
   total_weight (primary_matches d) + total_weight (secondary_matches d)
   + (if author_matches d is [] then 0 else author_bonus)
   - (if excluded_matches d is [] then 0 else exclusion_penalty))%Q.
Proof.
  unfold match_score_of.
  destruct (author_matches d), (excluded_matches d);
    rewrite (add_weights_total _ (secondary_matches d)),
            (add_weights_total _ (primary_matches d)); ring.
Qed.

Lemma preferred_authors_ok paper names preferences :
  paper !! "authors" = Some (VList names) ->
  forall matches,
    preferred_authors paper preferences matches
    = Ok (matches ++ preferred names preferences).
Proof.
  intros Hn. induction preferences as [|a rest IH]; intros matches; cbn.
  - now rewrite app_nil_r.
  - unfold lowered_authors. rewrite Hn. cbn [rbind]. rewrite IH.
    destruct (list_contains (lower a) (map lower names)); [|reflexivity].
    now rewrite <- app_assoc.
Qed.

Lemma weights_ok_lookup wf k :
  weights_ok wf = true -> In k weight_keys -> exists x, wf !! k = Some x.
Proof.
  unfold weights_ok. rewrite forallb_forall. intros H Hk.
  specialize (H k Hk). apply bool_decide_eq_true in H as [x Hx]. eauto.
Qed.

(** What [match_keywords] returns on a scorable paper. *)
Lemma match_keywords_scorable cfg paper :
  scorable paper = true -> weights_ok (weight_factors cfg) = true ->
  exists title abstract x y z1 z2 names,
    paper !! "title" = Some (VStr title) /\
    paper !! "abstract" = Some (VStr abstract) /\
    paper !! "authors" = Some (VList names) /\
    weight_factors cfg !! "title_match" = Some x /\
    weight_factors cfg !! "abstract_match" = Some y /\
    weight_factors cfg !! "primary_keyword_match" = Some z1 /\
    weight_factors cfg !! "secondary_keyword_match" = Some z2 /\
    match_keywords cfg paper =
    let d := MatchDetails
               (hits x y z1 (lower title) (lower abstract) (primary_keywords cfg))
               (hits x y z2 (lower title) (lower abstract) (secondary_keywords cfg))
               (excluded (lower title) (lower abstract) (exclude_keywords cfg))
               (preferred names (author_preferences cfg)) in
    Ok (match_score_of d, d).
Proof.
  intros Hs Hw. unfold scorable in Hs.
  apply andb_prop in Hs as [Hs Hau]. apply andb_prop in Hs as [Ht Ha].
  destruct (paper !! "title") as [[| title | | |]|] eqn:Et; try discriminate.
  destruct (paper !! "abstract") as [[| abstract | | |]|] eqn:Ea; try discriminate.
  destruct (paper !! "authors") as [[| | | names |]|] eqn:En; try discriminate.
  destruct (weights_ok_lookup _ "title_match" Hw) as [x Hx]; [cbn; tauto|].
  destruct (weights_ok_lookup _ "abstract_match" Hw) as [y Hy]; [cbn; tauto|].
  destruct (weights_ok_lookup _ "primary_keyword_match" Hw) as [z1 Hz1]; [cbn; tauto|].
  destruct (weights_ok_lookup _ "secondary_keyword_match" Hw) as [z2 Hz2]; [cbn; tauto|].
  pose proof (preferred_authors_ok paper names (author_preferences cfg) En [])
    as Hauth.
  exists title, abstract, x, y, z1, z2, names.
  do 7 (split; [first [assumption | reflexivity]|]).
  unfold match_keywords, lowered_field. rewrite Et, Ea. cbn [rbind].
  rewrite (keyword_matches_hits _ _ _ _ _ _ _ _ Hx Hy Hz1).
  rewrite (keyword_matches_hits _ _ _ _ _ _ _ _ Hx Hy Hz2).
  cbn [rbind app]. rewrite Hauth. reflexivity.
Qed.

Lemma hit_location wf tier title abstract e :
  hit wf tier title abstract e ->
  location e = if str_contains (lower (keyword e)) title then "title" else "abstract".
Proof. intros [(-> & -> & _)|(-> & -> & _)]; reflexivity. Qed.
End Scorer.


Lemma keyword_matches_ext (wf wf' : gmap string Q) tier title abstract keywords :
  wf' !! "title_match" = wf !! "title_match" ->
  wf' !! "abstract_match" = wf !! "abstract_match" ->
  wf' !! tier = wf !! tier ->
  forall matches,
    ArxivParser.keyword_matches wf' tier title abstract keywords matches
    = ArxivParser.keyword_matches wf tier title abstract keywords matches.
Proof.
  intros Ht Ha Hz.
  induction keywords as [|kw rest IH]; intros matches; cbn [ArxivParser.keyword_matches];
    [reflexivity|].
  unfold ArxivParser.weight_product. rewrite Ht, Ha, Hz.
  destruct (str_contains (lower kw) title).
  - destruct (wf !! "title_match"); [|reflexivity].
    destruct (wf !! tier); [|reflexivity]. cbn [rbind]. apply IH.
  - destruct (str_contains (lower kw) abstract); [|apply IH].
    destruct (wf !! "abstract_match"); [|reflexivity].
    destruct (wf !! tier); [|reflexivity]. cbn [rbind]. apply IH.
Qed.


(** C10. The score is computed from the weights of the hits by adding
    the constant 1 when a preferred author matched and subtracting the
    constant 2 when an exclude keyword matched; the result of
    [match_keywords] is the same for all weight factor tables that agree
    on the four location and tier factors, whatever else a table holds. *)
Theorem bonus_and_penalty_are_constants
  (cfg : ArxivParser.keywords_config) (wf' : gmap string Q) (paper : dict) :
  (forall k, In k weight_keys -> wf' !! k = ArxivParser.weight_factors cfg !! k) ->
  ArxivParser.match_keywords (with_weights cfg wf') paper
  = ArxivParser.match_keywords cfg paper
  /\
  forall s d,
    ArxivParser.match_keywords cfg paper = Ok (s, d) ->
    s = (let base := ArxivParser.add_weights
                       (ArxivParser.add_weights 0 (primary_matches d))
                       (secondary_matches d) in
         let with_bonus := if author_matches d is [] then base else base + 1 in
         if excluded_matches d is [] then with_bonus else with_bonus - 2)%Q.
Proof.
  intros Hagree. split.
  - unfold ArxivParser.match_keywords. cbn [with_weights
      ArxivParser.primary_keywords ArxivParser.secondary_keywords
      ArxivParser.exclude_keywords ArxivParser.author_preferences
      ArxivParser.weight_factors].
    destruct (ArxivParser.lowered_field paper "title") as [title|]; [|reflexivity].
    destruct (ArxivParser.lowered_field paper "abstract") as [abstract|]; [|reflexivity].
    cbn [rbind].
    rewrite !(keyword_matches_ext (ArxivParser.weight_factors cfg) wf');
      try (apply Hagree; cbn; tauto).
    reflexivity.
  - intros s d. unfold ArxivParser.match_keywords.
    destruct (ArxivParser.lowered_field paper "title") as [title|]; [|discriminate].
    destruct (ArxivParser.lowered_field paper "abstract") as [abstract|]; [|discriminate].
    cbn [rbind].
    destruct (ArxivParser.keyword_matches _ "primary_keyword_match" _ _ _ _)
      as [prim|]; [|discriminate].
    destruct (ArxivParser.keyword_matches _ "secondary_keyword_match" _ _ _ _)
      as [sec|]; [|discriminate].
    cbn [rbind].
    destruct (ArxivParser.preferred_authors _ _ _) as [auth|]; [|discriminate].
    cbn [rbind]. intros [= <- <-]. reflexivity.
Qed.

(** *** Adding a title hit *)

Lemma total_weight_hits_mono (x y z : Q) (title title' abstract k : string)
  (keywords : list string) :
  (0 <= x * z)%Q -> (y * z <= x * z)%Q ->
  str_contains (lower k) title' = true ->
  (forall k', In k' keywords -> lower k' <> lower k ->
              str_contains (lower k') title' = str_contains (lower k') title) ->
  (total_weight (hits x y z title abstract keywords)
   <= total_weight (hits x y z title' abstract keywords))%Q.
Proof.
  intros H0 Hxy Hk. unfold hits, total_weight.
  induction keywords as [|kw rest IH]; intros Hsame; cbn [flat_map].
  - cbn [foldr]. lra.
  - assert (IH' := IH (fun k' Hin => Hsame k' (or_intror Hin))). clear IH.
    destruct (string_dec (lower kw) (lower k)) as [E|E].
    + rewrite E, Hk.
      destruct (str_contains (lower k) title); [cbn [app foldr weight]; lra|].
      destruct (str_contains (lower k) abstract); cbn [app foldr weight]; lra.
    + rewrite (Hsame kw (or_introl eq_refl) E).
      destruct (str_contains (lower kw) title); [cbn [app foldr weight]; lra|].
      destruct (str_contains (lower kw) abstract); cbn [app foldr weight]; lra.
Qed.

Lemma hits_same_title (x y z : Q) (title title' abstract : string) (keywords : list string) :
  (forall k', In k' keywords ->
              str_contains (lower k') title' = str_contains (lower k') title) ->
  hits x y z title' abstract keywords = hits x y z title abstract keywords.
Proof.
  unfold hits. induction keywords as [|kw rest IH]; intros Hsame; cbn [flat_map];
    [reflexivity|].
  rewrite (Hsame kw (or_introl eq_refl)), IH; [reflexivity|].
  intros k' Hin. apply Hsame. now right.
Qed.

Lemma excluded_same_title (title title' abstract : string) (keywords : list string) :
  (forall k', In k' keywords ->
              str_contains (lower k') title' = str_contains (lower k') title) ->
  ArxivParser.excluded title' abstract keywords = ArxivParser.excluded title abstract keywords.
Proof.
  unfold ArxivParser.excluded.
  induction keywords as [|kw rest IH]; intros Hsame; cbn [List.filter]; [reflexivity|].
  rewrite (Hsame kw (or_introl eq_refl)), IH; [reflexivity|].
  intros k' Hin. apply Hsame. now right.
Qed.

(** C8, as amended.  Let the primary title weight
    [title_match * primary_keyword_match] be non-negative and at least
    the primary abstract weight.  If a new title makes the primary
    keyword [k] a substring of the title and leaves every other keyword
    of the configuration in or out of the title as it was, the score
    with the new title is not lower. *)
Theorem title_hit_monotone
  (cfg : ArxivParser.keywords_config) (paper : dict) (title title' k : string) (x y z : Q) :
  scorable paper = true ->
  weights_ok (ArxivParser.weight_factors cfg) = true ->
  paper !! "title" = Some (VStr title) ->
  ArxivParser.weight_factors cfg !! "title_match" = Some x ->
  ArxivParser.weight_factors cfg !! "abstract_match" = Some y ->
  ArxivParser.weight_factors cfg !! "primary_keyword_match" = Some z ->
  (0 <= x * z)%Q -> (y * z <= x * z)%Q ->
  In k (ArxivParser.primary_keywords cfg) ->
  str_contains (lower k) (lower title) = false ->
  str_contains (lower k) (lower title') = true ->
  (forall k', In k' (ArxivParser.primary_keywords cfg) -> lower k' <> lower k ->
     str_contains (lower k') (lower title') = str_contains (lower k') (lower title)) ->
  (forall k', In k' (ArxivParser.secondary_keywords cfg ++ ArxivParser.exclude_keywords cfg) ->
     str_contains (lower k') (lower title') = str_contains (lower k') (lower title)) ->
  exists s d s' d',
    ArxivParser.match_keywords cfg paper = Ok (s, d) /\
    ArxivParser.match_keywords cfg (with_title paper title') = Ok (s', d') /\
    (s <= s')%Q.
Proof.
  intros Hsc Hw Ht Hx Hy Hz H0 Hxy Hin Hold Hnew Hprim Hother.
  assert (Hsc' : scorable (with_title paper title') = true).
  { unfold scorable, with_title in *.
    rewrite lookup_insert_eq, !lookup_insert_ne by discriminate.
    apply andb_prop in Hsc as [Hsc Hau]. apply andb_prop in Hsc as [_ Hab].
    now rewrite Hab, Hau. }
  destruct (match_keywords_scorable cfg paper Hsc Hw)
    as (t & a & x1 & y1 & z1 & z2 & names & Et & Ea & En & Ex & Ey & Ez1 & Ez2 & E).
  destruct (match_keywords_scorable cfg _ Hsc' Hw)
    as (t' & a' & x1' & y1' & z1' & z2' & names' & Et' & Ea' & En' & Ex' & Ey' & Ez1' & Ez2' & E').
  unfold with_title in Et', Ea', En'.
  rewrite lookup_insert_eq in Et'. rewrite lookup_insert_ne in Ea', En' by discriminate.
  assert (t = title) by congruence. assert (t' = title') by congruence.
  assert (a' = a) by congruence. assert (names' = names) by congruence.
  assert (x1 = x) by congruence. assert (x1' = x) by congruence.
  assert (y1 = y) by congruence. assert (y1' = y) by congruence.
  assert (z1 = z) by congruence. assert (z1' = z) by congruence.
  assert (z2' = z2) by congruence. subst.
  rewrite E, E'. cbv zeta. do 4 eexists. do 2 (split; [reflexivity|]).
  rewrite !match_score_of_sum.
  cbn [primary_matches secondary_matches author_matches excluded_matches].
  rewrite (hits_same_title x y z2 (lower title) (lower title'))
    by (intros k' Hk'; apply Hother, in_or_app; now left).
  rewrite (excluded_same_title (lower title) (lower title'))
    by (intros k' Hk'; apply Hother, in_or_app; now right).
  pose proof (total_weight_hits_mono x y z (lower title) (lower title') (lower a) k
                (ArxivParser.primary_keywords cfg) H0 Hxy Hnew Hprim) as Hmono.
  lra.
Qed.

Lemma title_hit_monotone_witness :
  exists s d s' d',
    ArxivParser.match_keywords Examples.taxonomy Examples.paper_b = Ok (s, d) /\
    ArxivParser.match_keywords Examples.taxonomy
      (with_title Examples.paper_b "Attention in Robots with a Diffusion Model")
    = Ok (s', d') /\
    (s <= s')%Q.
Proof.
  apply (title_hit_monotone Examples.taxonomy Examples.paper_b
           "Attention in Robots" "Attention in Robots with a Diffusion Model"
           "diffusion model" 1 (1 # 2) 2).
  - vm_compute; reflexivity.
  - vm_compute; reflexivity.
  - vm_compute; reflexivity.
  - vm_compute; reflexivity.
  - vm_compute; reflexivity.
  - vm_compute; reflexivity.
  - vm_compute; discriminate.
  - vm_compute; discriminate.
  - simpl; tauto.
  - vm_compute; reflexivity.
  - vm_compute; reflexivity.
  - intros k' [<-|[]] Hne. now elim Hne.
  - intros k' [<-|[<-|[<-|[]]]]; vm_compute; reflexivity.
Defined.

(** C8 as stated fails: with the abstract weight above the title
    weight, a keyword that moves from the abstract to the title lowers
    the score from 1 to 1/2, all other matches being the same. *)
Lemma title_hit_can_lower_score :
  ~ (forall (cfg : ArxivParser.keywords_config) (paper : dict) (title title' k : string)
            (s s' : Q) (d d' : match_details),
       In k (ArxivParser.primary_keywords cfg) ->
       paper !! "title" = Some (VStr title) ->
       str_contains (lower k) (lower title) = false ->
       str_contains (lower k) (lower title') = true ->
       (forall k', In k' (ArxivParser.primary_keywords cfg ++
                          ArxivParser.secondary_keywords cfg ++
                          ArxivParser.exclude_keywords cfg) ->
                   lower k' <> lower k ->
                   str_contains (lower k') (lower title')
                   = str_contains (lower k') (lower title)) ->
       ArxivParser.match_keywords cfg paper = Ok (s, d) ->
       ArxivParser.match_keywords cfg (with_title paper title') = Ok (s', d') ->
       (s <= s')%Q).
Proof.
  intros H.
  assert (Hle : (1 <= 1 # 2)%Q).
  { eapply (H Examples.abstract_heavy Examples.paper_slam "Mapping" "Mapping slam" "slam"
              1%Q (1 # 2)%Q
              (MatchDetails [MatchEntry "slam" "abstract" 1%Q] [] [] [])
              (MatchDetails [MatchEntry "slam" "title" (1 # 2)%Q] [] [] [])).
    - simpl; tauto.
    - vm_compute; reflexivity.
    - vm_compute; reflexivity.
    - vm_compute; reflexivity.
    - intros k' [<-|[]] Hne. now elim Hne.
    - vm_compute; reflexivity.
    - vm_compute; reflexivity. }
  vm_compute in Hle. now apply Hle.
Qed.


Lemma bonus_and_penalty_are_constants_witness :
  ArxivParser.match_keywords
    (with_weights Examples.taxonomy
       (<["author_match" := 5%Q]> (<["exclusion" := 10%Q]> (Examples.weights 1 (1 # 2) 2 1))))
    Examples.paper_a
  = ArxivParser.match_keywords Examples.taxonomy Examples.paper_a.
Proof.
  refine (proj1 (bonus_and_penalty_are_constants Examples.taxonomy _ Examples.paper_a _)).
  intros k [<-|[<-|[<-|[<-|[]]]]]; vm_compute; reflexivity.
Defined.


(** The two examples of the specification: a primary keyword in the
    title scores 1.0 * 2.0 and is kept; a secondary keyword in the
    abstract only scores 0.5 * 1.0 and is dropped by the minimum 1.5. *)
Example score_title_hit :
  score Examples.taxonomy Examples.paper_future = 2%Q /\
  qualifies Examples.taxonomy Examples.paper_future = true.
Proof. split; vm_compute; reflexivity. Qed.

Example score_abstract_hit :
  score Examples.taxonomy Examples.paper_b = (1 # 2)%Q /\
  qualifies Examples.taxonomy Examples.paper_b = false.
Proof. split; vm_compute; reflexivity. Qed.

(** ** The filter stage *)

Lemma filter_sublist {A} (f : A -> bool) (l : list A) : sublist (List.filter f l) l.
Proof.
  induction l as [|x l IH]; cbn; [constructor|].
  destruct (f x); now constructor.
Qed.

Example strptime_iso : Date.strptime "2024-03-01" = Ok 738946.
Proof. reflexivity. Qed.

Example strptime_short : Date.strptime "2024-3-1" = Ok 738946.
Proof. reflexivity. Qed.

Example strptime_no_such_day : Date.strptime "2024-02-30" = Raise ValueError.
Proof. reflexivity. Qed.

Lemma strptime_raises (s : string) (e : exn) : Date.strptime s = Raise e -> e = ValueError.
Proof.
  unfold Date.strptime.
  destruct (Date.match_ymd _) as [[[[y m] d] [|c r]]|]; try congruence.
  destruct (_ && _); congruence.
Qed.

Section DateFilter.
Import PaperFilter.
Variable date_cutoff : Z.

(** One turn of the loop of [filter_by_date]. *)
Lemma filter_by_date_turn (paper : loc) (filtered_papers : list loc) (σ : heap) :
  try_except_value_key (keep_if_recent date_cutoff paper filtered_papers)
                       (ret filtered_papers) σ
  = (if text_or_absent (σ paper !! "published_date")
     then Ok (if in_window date_cutoff (σ paper)
              then filtered_papers ++ [paper] else filtered_papers)
     else Raise TypeError, σ).
Proof.
  unfold try_except_value_key, keep_if_recent, bind, getitem, lift, ret,
    in_window, published.
  destruct (σ paper !! "published_date") as [[| s | | |]|]; cbn; try reflexivity.
  destruct (Date.strptime s) as [d|e] eqn:E; cbn; [reflexivity|].
  now rewrite (strptime_raises _ _ E).
Qed.

Lemma filter_by_date_loop_frame (papers : list loc) :
  forall filtered_papers σ,
    snd (filter_by_date_loop date_cutoff papers filtered_papers σ) = σ.
Proof.
  induction papers as [|paper rest IH]; intros acc σ; [reflexivity|].
  cbn [filter_by_date_loop]. unfold bind at 1. rewrite filter_by_date_turn.
  destruct (text_or_absent _); [apply IH | reflexivity].
Qed.

Lemma filter_by_date_loop_inv (papers : list loc) :
  forall filtered_papers σ out,
    fst (filter_by_date_loop date_cutoff papers filtered_papers σ) = Ok out ->
    out = filtered_papers ++ List.filter (fun p => in_window date_cutoff (σ p)) papers.
Proof.
  induction papers as [|paper rest IH]; intros acc σ out.
  - cbn. intros [= <-]. now rewrite app_nil_r.
  - cbn [filter_by_date_loop List.filter]. unfold bind at 1.
    rewrite filter_by_date_turn.
    destruct (text_or_absent _); [|discriminate].
    intros H. apply IH in H as ->.
    destruct (in_window date_cutoff (σ paper)); [|reflexivity].
    now rewrite <- app_assoc.
Qed.

Lemma filter_by_date_loop_total (papers : list loc) :
  forall filtered_papers σ,
    (forall p, In p papers -> text_or_absent (σ p !! "published_date") = true) ->
    filter_by_date_loop date_cutoff papers filtered_papers σ
    = (Ok (filtered_papers ++ List.filter (fun p => in_window date_cutoff (σ p)) papers), σ).
Proof.
  induction papers as [|paper rest IH]; intros acc σ Hwf.
  - cbn. now rewrite app_nil_r.
  - cbn [filter_by_date_loop List.filter]. unfold bind at 1.
    rewrite filter_by_date_turn, (Hwf paper (or_introl eq_refl)).
    rewrite IH by (intros p Hp; apply Hwf; now right).
    destruct (in_window date_cutoff (σ paper)); [|reflexivity].
    now rewrite <- app_assoc.
Qed.
End DateFilter.

Lemma sub_days_ok (today days : Z) :
  0 <= days < today -> today <= Date.MAXORDINAL ->
  Date.sub_days today days = Ok (today - days).
Proof.
  intros Hd Ht. unfold Date.sub_days, Date.MAXORDINAL, Date.MAXDELTADAYS in *.
  rewrite Z.abs_eq by lia.
  destruct (Z.leb_spec days 999999999); [|lia].
  destruct (Z.leb_spec 1 (today - days)); [|lia].
  destruct (Z.leb_spec (today - days) 3652059); [|lia].
  reflexivity.
Qed.

Lemma sub_days_inv (today days cutoff : Z) :
  Date.sub_days today days = Ok cutoff -> cutoff = today - days.
Proof. unfold Date.sub_days. destruct (_ && _); congruence. Qed.

Lemma filter_by_date_total (today days : Z) (papers : list loc) (σ : heap) :
  0 <= days < today -> today <= Date.MAXORDINAL ->
  (forall p, In p papers -> text_or_absent (σ p !! "published_date") = true) ->
  PaperFilter.filter_by_date today papers days σ
  = (Ok (List.filter (fun p => in_window (today - days) (σ p)) papers), σ).
Proof.
  intros Hd Ht Hwf. unfold PaperFilter.filter_by_date, bind at 1, lift.
  rewrite (sub_days_ok _ _ Hd Ht). now apply filter_by_date_loop_total.
Qed.

Lemma filter_by_date_frame (today days : Z) (papers : list loc) (σ : heap) :
  snd (PaperFilter.filter_by_date today papers days σ) = σ.
Proof.
  unfold PaperFilter.filter_by_date, bind at 1, lift.
  destruct (Date.sub_days today days); [apply filter_by_date_loop_frame | reflexivity].
Qed.

(** C3, as amended.  What [filter_by_date] returns is the subsequence of
    the papers whose publication date parses and is not before
    [today - days], the bound included; a paper without a date, or with
    text that is not a date, is not in it.  No upper bound is applied.
    A result is returned whenever the cutoff is a date and every date
    field present is text. *)
Theorem filter_by_date_window (today days : Z) (papers : list loc) (σ : heap) :
  (forall out,
     fst (PaperFilter.filter_by_date today papers days σ) = Ok out ->
     out = List.filter (fun p => in_window (today - days) (σ p)) papers /\
     sublist out papers /\
     (forall p, In p out ->
        exists s d, σ p !! "published_date" = Some (VStr s) /\
                    Date.strptime s = Ok d /\ today - days <= d) /\
     (forall p d, In p papers -> published (σ p) = Some d -> today - days <= d ->
                  In p out) /\
     (forall p, In p papers -> published (σ p) = None -> ~ In p out))
  /\
  (0 <= days < today -> today <= Date.MAXORDINAL ->
   (forall p, In p papers -> text_or_absent (σ p !! "published_date") = true) ->
   exists out, fst (PaperFilter.filter_by_date today papers days σ) = Ok out).
Proof.
  split.
  - intros out. unfold PaperFilter.filter_by_date, bind at 1, lift.
    destruct (Date.sub_days today days) as [cutoff|] eqn:Hc; [|discriminate].
    apply sub_days_inv in Hc as ->.
    intros H. apply filter_by_date_loop_inv in H. cbn [app] in H. subst out.
    split; [reflexivity|]. split; [apply filter_sublist|].
    split; [|split].
    + intros p Hp. apply filter_In in Hp as [_ Hp].
      unfold in_window, published in Hp.
      destruct (σ p !! "published_date") as [[| s | | |]|]; try discriminate.
      destruct (Date.strptime s) as [d|] eqn:Es; [|discriminate].
      exists s, d. split; [reflexivity|]. split; [exact Es|]. now apply Z.leb_le.
    + intros p d Hp Hd Hle. apply filter_In. split; [exact Hp|].
      unfold in_window. rewrite Hd. now apply Z.leb_le.
    + intros p Hp Hd Hin. apply filter_In in Hin as [_ Hin].
      unfold in_window in Hin. now rewrite Hd in Hin.
  - intros Hd Ht Hwf. rewrite filter_by_date_total by assumption. eauto.
Qed.

Lemma filter_by_date_window_witness :
  exists out,
    fst (PaperFilter.filter_by_date Examples.today [0; 1; 2; 3]%nat 1
           (Examples.store [Examples.paper_a; Examples.paper_c;
                            Examples.paper_undated; Examples.paper_baddate])) = Ok out.
Proof.
  apply (proj2 (filter_by_date_window Examples.today 1 [0; 1; 2; 3]%nat
                  (Examples.store [Examples.paper_a; Examples.paper_c;
                                   Examples.paper_undated; Examples.paper_baddate]))).
  - vm_compute. split; [discriminate | reflexivity].
  - vm_compute; discriminate.
  - intros p [<-|[<-|[<-|[<-|[]]]]]; vm_compute; reflexivity.
Defined.

(** C3 as stated fails: a paper dated the day after [today] is kept,
    though its date is not in the window from [today - days] to
    [today]. *)
Lemma filter_by_date_keeps_future :
  ~ (forall (today days : Z) (papers : list loc) (σ : heap) (out : list loc),
       0 <= days ->
       fst (PaperFilter.filter_by_date today papers days σ) = Ok out ->
       forall p, In p out ->
         exists d, published (σ p) = Some d /\ today - days <= d <= today).
Proof.
  intros H.
  destruct (H Examples.today 2 [0%nat] (Examples.store [Examples.paper_future]) [0%nat])
    with (p := 0%nat) as (d & Hd & Hle).
  - lia.
  - vm_compute; reflexivity.
  - now left.
  - vm_compute in Hd. injection Hd as <-. unfold Examples.today in Hle. lia.
Qed.

Lemma any_category_list (cs categories : list string) :
  PaperFilter.any_category (VList cs) categories
  = Ok (existsb (fun c => list_contains c cs) categories).
Proof.
  induction categories as [|c rest IH]; cbn; [reflexivity|].
  destruct (list_contains c cs); [reflexivity | exact IH].
Qed.

Section CategoryFilter.
Import PaperFilter.
Variable categories : list string.

Lemma filter_by_category_loop_frame (papers : list loc) :
  forall filtered_papers σ,
    snd (filter_by_category_loop categories papers filtered_papers σ) = σ.
Proof.
  induction papers as [|paper rest IH]; intros acc σ; [reflexivity|].
  cbn [filter_by_category_loop]. unfold bind, get, lift.
  destruct (any_category _ categories); [apply IH | reflexivity].
Qed.

Lemma filter_by_category_loop_total (papers : list loc) :
  forall filtered_papers σ,
    (forall p, In p papers -> list_or_absent (σ p !! "categories") = true) ->
    filter_by_category_loop categories papers filtered_papers σ
    = (Ok (filtered_papers ++
           List.filter (fun p => shares_category categories (σ p)) papers), σ).
Proof.
  induction papers as [|paper rest IH]; intros acc σ Hwf.
  - cbn. now rewrite app_nil_r.
  - cbn [filter_by_category_loop List.filter]. unfold bind at 1 2, get, lift.
    pose proof (Hwf paper (or_introl eq_refl)) as Hp.
    assert (E : any_category (default (VList []) (σ paper !! "categories")) categories
                = Ok (shares_category categories (σ paper))).
    { unfold shares_category.
      destruct (σ paper !! "categories") as [[| | | cs |]|]; try discriminate;
        simpl default; rewrite any_category_list; [reflexivity|].
      f_equal. clear. induction categories as [|c rest IHc]; [reflexivity | exact IHc]. }
    rewrite E. rewrite IH by (intros p Hin; apply Hwf; now right).
    destruct (shares_category categories (σ paper)); [|reflexivity].
    now rewrite <- app_assoc.
Qed.
End CategoryFilter.

Lemma filter_by_category_frame (papers : list loc) (categories : list string) (σ : heap) :
  snd (PaperFilter.filter_by_category papers categories σ) = σ.
Proof. apply filter_by_category_loop_frame. Qed.

Lemma filter_by_category_total (papers : list loc) (categories : list string) (σ : heap) :
  (forall p, In p papers -> list_or_absent (σ p !! "categories") = true) ->
  PaperFilter.filter_by_category papers categories σ
  = (Ok (List.filter (fun p => shares_category categories (σ p)) papers), σ).
Proof. intros H. now apply (filter_by_category_loop_total categories papers []). Qed.

(** ** Deduplication *)

Lemma existsb_value_eqb (i : string) (seen : list string) :
  existsb (value_eqb (VStr i)) (map VStr seen) = list_contains i seen.
Proof.
  unfold list_contains. induction seen as [|j seen IH]; cbn; [reflexivity|].
  now rewrite IH.
Qed.

Lemma filter_duplicates_loop_frame (papers : list loc) :
  forall seen unique_papers σ,
    snd (PaperFilter.filter_duplicates_loop papers seen unique_papers σ) = σ.
Proof.
  induction papers as [|paper rest IH]; intros seen acc σ; [reflexivity|].
  cbn [PaperFilter.filter_duplicates_loop]. unfold bind, getitem, lift.
  destruct (σ paper !! "id") as [v|]; [|reflexivity].
  destruct (PaperFilter.not_in_set v seen) as [[]|]; [apply IH | apply IH | reflexivity].
Qed.

Lemma filter_duplicates_loop_total (papers : list loc) :
  forall seen unique_papers σ,
    (forall p, In p papers -> is_text (σ p !! "id") = true) ->
    PaperFilter.filter_duplicates_loop papers (map VStr seen) unique_papers σ
    = (Ok (unique_papers ++ first_by_id (fun p => ident (σ p)) seen papers), σ).
Proof.
  induction papers as [|paper rest IH]; intros seen acc σ Hwf.
  - cbn. now rewrite app_nil_r.
  - cbn [PaperFilter.filter_duplicates_loop first_by_id].
    unfold bind at 1 2, getitem, lift.
    pose proof (Hwf paper (or_introl eq_refl)) as Hp.
    destruct (σ paper !! "id") as [[| i | | |]|] eqn:Eid; try discriminate.
    assert (Hi : ident (σ paper) = i) by (unfold ident; now rewrite Eid).
    rewrite !Hi. unfold PaperFilter.not_in_set. cbn [hashable]. rewrite existsb_value_eqb.
    destruct (list_contains i seen); cbn [negb].
    + apply IH. intros p Hin. apply Hwf. now right.
    + change (VStr i :: map VStr seen) with (map VStr (i :: seen)).
      rewrite IH by (intros p Hin; apply Hwf; now right).
      now rewrite <- app_assoc.
Qed.

Lemma filter_duplicates_frame (papers : list loc) (σ : heap) :
  snd (PaperFilter.filter_duplicates papers σ) = σ.
Proof. apply filter_duplicates_loop_frame. Qed.

Lemma filter_duplicates_total (papers : list loc) (σ : heap) :
  (forall p, In p papers -> is_text (σ p !! "id") = true) ->
  PaperFilter.filter_duplicates papers σ
  = (Ok (first_by_id (fun p => ident (σ p)) [] papers), σ).
Proof. intros H. now apply (filter_duplicates_loop_total papers [] []). Qed.

(** ** Keyword filtering and ranking *)

Section Ranked.
Variable sc : loc -> Q.

Lemma keyed_sorted_keys (l : list loc) :
  Forall (fun x => fst x = sc (snd x)) (sort_desc (map (fun p => (sc p, p)) l)).
Proof.
  eapply Permutation_Forall; [symmetry; apply sort_desc_perm|].
  induction l; constructor; [reflexivity | assumption].
Qed.

Lemma ranked_perm (l : list loc) : Permutation (ranked sc l) l.
Proof.
  unfold ranked. rewrite sort_desc_perm, map_map. cbn. now rewrite map_id.
Qed.

Lemma ranked_In (l : list loc) (p : loc) : In p (ranked sc l) <-> In p l.
Proof.
  split; apply Permutation_in; [|symmetry]; apply ranked_perm.
Qed.

Lemma keyed_map_sorted (ks : list (Q * loc)) :
  Forall (fun x => fst x = sc (snd x)) ks ->
  StronglySorted desc ks -> StronglySorted (before sc) (map snd ks).
Proof.
  intros Hk Hs. induction Hs as [|x ks Hs IH Hx]; cbn; constructor.
  - apply IH. now inversion Hk.
  - inversion Hk as [|? ? Ex Hks]; subst.
    rewrite List.Forall_forall in *. intros q Hq.
    apply in_map_iff in Hq as (y & <- & Hy).
    unfold before. rewrite <- Ex, <- (Hks y Hy). now apply Hx.
Qed.

Lemma ranked_sorted (l : list loc) : StronglySorted (before sc) (ranked sc l).
Proof.
  apply keyed_map_sorted; [apply keyed_sorted_keys | apply sort_desc_sorted].
Qed.

Lemma keyed_filter (q : Q) (ks : list (Q * loc)) :
  Forall (fun x => fst x = sc (snd x)) ks ->
  List.filter (fun p => Qeq_bool (sc p) q) (map snd ks)
  = map snd (List.filter (key_is q) ks).
Proof.
  induction 1 as [|x ks Hx _ IH]; [reflexivity|].
  cbn. unfold key_is at 1. rewrite Hx, IH.
  now destruct (Qeq_bool (sc (snd x)) q).
Qed.

(** Papers with the same score keep their order. *)
Lemma ranked_stable (l : list loc) (q : Q) :
  List.filter (fun p => Qeq_bool (sc p) q) (ranked sc l)
  = List.filter (fun p => Qeq_bool (sc p) q) l.
Proof.
  unfold ranked. rewrite keyed_filter by apply keyed_sorted_keys.
  rewrite sort_desc_stable.
  rewrite <- keyed_filter.
  - rewrite map_map. cbn. now rewrite map_id.
  - clear. induction l; constructor; [reflexivity | assumption].
Qed.
End Ranked.

Section KeywordFilter.
Import ArxivParser.
Variable cfg : keywords_config.

Lemma preferred_authors_agree (d d' : dict) (preferences : list string) :
  d' !! "authors" = d !! "authors" ->
  forall matches,
    preferred_authors d' preferences matches = preferred_authors d preferences matches.
Proof.
  intros H. induction preferences as [|a rest IH]; intros matches; cbn; [reflexivity|].
  unfold lowered_authors. rewrite H.
  destruct (d !! "authors") as [[]|]; cbn; try reflexivity; apply IH.
Qed.

(** [match_keywords] reads the title, the abstract and the authors
    only. *)
Lemma match_keywords_agree (d d' : dict) :
  d' !! "title" = d !! "title" -> d' !! "abstract" = d !! "abstract" ->
  d' !! "authors" = d !! "authors" ->
  match_keywords cfg d' = match_keywords cfg d.
Proof.
  intros Ht Ha Hn. unfold match_keywords, lowered_field. rewrite Ht, Ha.
  destruct (d !! "title") as [[]|]; try reflexivity.
  destruct (d !! "abstract") as [[]|]; try reflexivity. cbn [rbind].
  destruct (keyword_matches _ "primary_keyword_match" _ _ _ _); [|reflexivity].
  destruct (keyword_matches _ "secondary_keyword_match" _ _ _ _); [|reflexivity].
  cbn [rbind]. now rewrite (preferred_authors_agree d d').
Qed.

Lemma scored_lookup (d : dict) (k : string) :
  k <> "match_score" -> k <> "match_details" -> scored cfg d !! k = d !! k.
Proof.
  intros H1 H2. unfold scored.
  destruct (match_keywords cfg d) as [[s dt]|]; [|reflexivity].
  now rewrite !lookup_insert_ne by congruence.
Qed.

Lemma match_keywords_scored (d : dict) :
  match_keywords cfg (scored cfg d) = match_keywords cfg d.
Proof. apply match_keywords_agree; apply scored_lookup; discriminate. Qed.

Lemma scored_again (d : dict) (s : Q) (dt : match_details) :
  match_keywords cfg d = Ok (s, dt) ->
  <["match_details" := VDetails dt]> (<["match_score" := VNum s]> (scored cfg d))
  = scored cfg d.
Proof.
  intros E. unfold scored. rewrite E.
  rewrite (insert_insert_ne _ "match_score" "match_details") by discriminate.
  now rewrite !insert_insert_eq.
Qed.

Variable σ : heap.

Lemma touched_match_keywords (σi : heap) (p : loc) :
  touched cfg σ σi -> match_keywords cfg (σi p) = match_keywords cfg (σ p).
Proof.
  intros H. destruct (H p) as [-> | ->]; [reflexivity | apply match_keywords_scored].
Qed.

Lemma score_loop_total (papers : list loc) :
  forall filtered_papers σi,
    touched cfg σ σi ->
    (forall p, In p papers -> can_score cfg (σ p) = true) ->
    exists σ',
      score_loop cfg papers filtered_papers σi
      = (Ok (filtered_papers ++ List.filter (fun p => qualifies cfg (σ p)) papers), σ') /\
      touched cfg σ σ' /\
      (forall p, In p (List.filter (fun p => qualifies cfg (σ p)) papers) ->
                 σ' p = scored cfg (σ p)) /\
      (forall p, ~ In p (List.filter (fun p => qualifies cfg (σ p)) papers) ->
                 σ' p = σi p).
Proof.
  induction papers as [|paper rest IH]; intros acc σi Hinv Hcan.
  - exists σi. cbn. rewrite app_nil_r. repeat split; auto. intros p [].
  - cbn [score_loop List.filter].
    rewrite (touched_match_keywords σi paper Hinv).
    pose proof (Hcan paper (or_introl eq_refl)) as Hp.
    unfold can_score in Hp.
    destruct (match_keywords cfg (σ paper)) as [[s d]|] eqn:E; [|discriminate].
    assert (Hq : qualifies cfg (σ paper) = Qle_bool (minimum_match_score cfg) s)
      by (unfold qualifies, score; now rewrite E).
    rewrite Hq.
    assert (Hrest : forall p, In p rest -> can_score cfg (σ p) = true)
      by (intros p Hin; apply Hcan; now right).
    destruct (Qle_bool (minimum_match_score cfg) s).
    + unfold bind at 1 2, setitem. rewrite fn_lookup_insert.
      set (σ1 := <[paper := _]> (<[paper := _]> σi)).
      assert (H1 : σ1 paper = scored cfg (σ paper)).
      { unfold σ1. rewrite fn_lookup_insert.
        destruct (Hinv paper) as [-> | ->]; [|now apply scored_again].
        unfold scored. now rewrite E. }
      assert (Hne : forall p, p <> paper -> σ1 p = σi p).
      { intros p Hne. unfold σ1. now rewrite !fn_lookup_insert_ne by congruence. }
      assert (Hinv1 : touched cfg σ σ1).
      { intros p. destruct (Nat.eq_dec p paper) as [-> | Hp'].
        - now right.
        - rewrite (Hne p Hp'). apply Hinv. }
      destruct (IH (acc ++ [paper]) σ1 Hinv1 Hrest) as (σ' & Eq & Hinv' & Hin & Hout).
      exists σ'. rewrite Eq, <- app_assoc. split; [reflexivity|].
      split; [exact Hinv'|]. split.
      * intros p Hp'.
        destruct (in_dec Nat.eq_dec p
                    (List.filter (fun p => qualifies cfg (σ p)) rest)) as [Hr|Hr];
          [now apply Hin|].
        destruct Hp' as [<- | Hp']; [|contradiction].
        now rewrite (Hout _ Hr).
      * intros p Hp'. rewrite Hout by (intros Hr; apply Hp'; now right).
        apply Hne. intros ->. apply Hp'. now left.
    + destruct (IH acc σi Hinv Hrest) as (σ' & Eq & Hinv' & Hin & Hout).
      exists σ'. now rewrite Eq.
Qed.

Lemma keys_of_scored (papers : list loc) (σ' : heap) :
  (forall p, In p papers -> σ' p = scored cfg (σ p)) ->
  (forall p, In p papers -> can_score cfg (σ p) = true) ->
  keys_of match_score_key papers σ'
  = (Ok (map (fun p => (score cfg (σ p), p)) papers), σ').
Proof.
  induction papers as [|paper rest IH]; intros Hs Hcan; [reflexivity|].
  cbn [keys_of map]. unfold bind at 1, match_score_key at 1, bind at 1, getitem, lift.
  rewrite (Hs paper (or_introl eq_refl)).
  pose proof (Hcan paper (or_introl eq_refl)) as Hp. unfold can_score in Hp.
  unfold scored, score.
  destruct (match_keywords cfg (σ paper)) as [[s d]|]; [|discriminate].
  rewrite lookup_insert_ne by discriminate. rewrite lookup_insert_eq. cbn [number].
  unfold bind at 1.
  rewrite IH;
    [reflexivity
    | intros p Hin; apply Hs; now right
    | intros p Hin; apply Hcan; now right].
Qed.

(** What [filter_papers_by_keywords] returns when every paper can be
    scored, and the store it leaves. *)
Lemma filter_papers_by_keywords_total (papers : list loc) :
  (forall p, In p papers -> can_score cfg (σ p) = true) ->
  exists σ',
    filter_papers_by_keywords cfg papers σ
    = (Ok (ranked (fun p => score cfg (σ p))
                  (List.filter (fun p => qualifies cfg (σ p)) papers)), σ') /\
    (forall p, In p papers -> qualifies cfg (σ p) = true -> σ' p = scored cfg (σ p)) /\
    (forall p, ~ (In p papers /\ qualifies cfg (σ p) = true) -> σ' p = σ p).
Proof.
  intros Hcan.
  destruct (score_loop_total papers [] σ (fun p => or_introl eq_refl) Hcan)
    as (σ' & Eq & _ & Hin & Hout).
  exists σ'. unfold filter_papers_by_keywords, bind at 1. rewrite Eq. cbn [app].
  unfold sorted_by_key_desc, bind at 1.
  rewrite keys_of_scored.
  - split; [reflexivity|]. split.
    + intros p Hp Hq. apply Hin, filter_In. now split.
    + intros p Hp. apply Hout. intros Hf. apply Hp. now apply filter_In in Hf.
  - exact Hin.
  - intros p Hp. apply filter_In in Hp as [Hp _]. now apply Hcan.
Qed.
End KeywordFilter.



(** ** Loops that write into the papers *)

Section Frames.
Implicit Types (σ : heap) (keys : list string) (papers : list loc).

Lemma writes_only_refl keys papers σ : writes_only keys papers σ σ.
Proof. split; reflexivity. Qed.

Lemma writes_only_trans keys papers σ1 σ2 σ3 :
  writes_only keys papers σ1 σ2 -> writes_only keys papers σ2 σ3 ->
  writes_only keys papers σ1 σ3.
Proof.
  intros [H1 H2] [H3 H4]. split.
  - intros p k Hk. now rewrite H3, H1.
  - intros p Hp. now rewrite H4, H2.
Qed.

Lemma writes_only_weaken keys keys' papers papers' σ σ' :
  incl keys keys' -> incl papers papers' ->
  writes_only keys papers σ σ' -> writes_only keys' papers' σ σ'.
Proof.
  intros Hk Hp [H1 H2]. split.
  - intros p k Hn. apply H1. intros Hin. apply Hn, Hk, Hin.
  - intros p Hn. apply H2. intros Hin. apply Hn, Hp, Hin.
Qed.

Lemma writes_only_insert (p : loc) (k : string) (v : value) σ :
  writes_only [k] [p] σ (<[p := <[k := v]> (σ p)]> σ).
Proof.
  split.
  - intros q k' Hk. destruct (Nat.eq_dec p q) as [<- | Hne].
    + rewrite fn_lookup_insert. apply lookup_insert_ne.
      intros ->. apply Hk. now left.
    + now rewrite fn_lookup_insert_ne.
  - intros q Hq. apply fn_lookup_insert_ne. intros ->. apply Hq. now left.
Qed.

Lemma for_each_frame keys (body : loc -> py unit) :
  (forall p σ, writes_only keys [p] σ (snd (body p σ))) ->
  forall papers σ, writes_only keys papers σ (snd (for_each papers body σ)).
Proof.
  intros Hbody. induction papers as [|p rest IH]; intros σ.
  - apply writes_only_refl.
  - cbn [for_each]. unfold bind.
    pose proof (Hbody p σ) as Hp. destruct (body p σ) as [[[]|e] σ1]; cbn [snd] in *.
    + eapply writes_only_trans.
      * eapply writes_only_weaken; [apply incl_refl | | exact Hp].
        intros q [<-|[]]. now left.
      * eapply writes_only_weaken; [apply incl_refl | | apply IH].
        intros q Hq. now right.
    + eapply writes_only_weaken; [apply incl_refl | | exact Hp].
      intros q [<-|[]]. now left.
Qed.

(** A loop whose body replaces the paper [d] by [f d]. *)
Lemma for_each_update (body : loc -> py unit) (f : dict -> dict) (P : dict -> Prop) :
  (forall p σ, P (σ p) -> body p σ = (Ok tt, <[p := f (σ p)]> σ)) ->
  (forall d, P d -> P (f d)) ->
  (forall d, P d -> f (f d) = f d) ->
  forall papers σ,
    (forall p, In p papers -> P (σ p)) ->
    exists σ',
      for_each papers body σ = (Ok tt, σ') /\
      (forall p, In p papers -> σ' p = f (σ p)) /\
      (forall p, ~ In p papers -> σ' p = σ p).
Proof.
  intros Hbody HP Hidem. induction papers as [|p rest IH]; intros σ Hall.
  - exists σ. repeat split; auto. intros q [].
  - cbn [for_each]. unfold bind.
    rewrite (Hbody p σ) by (apply Hall; now left).
    set (σ1 := <[p := f (σ p)]> σ).
    assert (H1 : σ1 p = f (σ p)) by apply fn_lookup_insert.
    assert (Hne : forall q, q <> p -> σ1 q = σ q)
      by (intros q Hq; apply fn_lookup_insert_ne; congruence).
    destruct (IH σ1) as (σ' & E & Hin & Hout).
    { intros q Hq. destruct (Nat.eq_dec q p) as [-> | Hqp].
      - rewrite H1. apply HP, Hall. now left.
      - rewrite (Hne q Hqp). apply Hall. now right. }
    exists σ'. split; [exact E|]. split.
    + intros q Hq. destruct (in_dec Nat.eq_dec q rest) as [Hr|Hr].
      * rewrite (Hin q Hr). destruct (Nat.eq_dec q p) as [-> | Hqp].
        -- rewrite H1. apply Hidem, Hall. now left.
        -- now rewrite (Hne q Hqp).
      * rewrite (Hout q Hr). destruct Hq as [<- | Hq]; [exact H1 | contradiction].
    + intros q Hq. rewrite Hout by (intros Hr; apply Hq; now right).
      apply Hne. intros ->. apply Hq. now left.
Qed.

Lemma keys_of_frame (key : loc -> py Q) :
  (forall p σ, snd (key p σ) = σ) ->
  forall papers σ, snd (keys_of key papers σ) = σ.
Proof.
  intros Hkey. induction papers as [|p rest IH]; intros σ; [reflexivity|].
  cbn [keys_of]. unfold bind at 1.
  pose proof (Hkey p σ) as Hp. destruct (key p σ) as [[k|e] σ1]; cbn [snd] in *; subst σ1;
    [|reflexivity].
  unfold bind. pose proof (IH σ) as Hr.
  destruct (keys_of key rest σ) as [[ks|e] σ2]; cbn [snd] in *; now subst.
Qed.

Lemma keys_of_total (key : loc -> py Q) (sc : loc -> Q) papers σ :
  (forall p, In p papers -> key p σ = (Ok (sc p), σ)) ->
  keys_of key papers σ = (Ok (map (fun p => (sc p, p)) papers), σ).
Proof.
  induction papers as [|p rest IH]; intros Hkey; [reflexivity|].
  cbn [keys_of map]. unfold bind at 1. rewrite (Hkey p (or_introl eq_refl)).
  unfold bind at 1. rewrite IH by (intros q Hq; apply Hkey; now right).
  reflexivity.
Qed.

Lemma sorted_by_key_desc_frame (key : loc -> py Q) :
  (forall p σ, snd (key p σ) = σ) ->
  forall papers σ, snd (sorted_by_key_desc key papers σ) = σ.
Proof.
  intros Hkey papers σ. unfold sorted_by_key_desc, bind.
  pose proof (keys_of_frame key Hkey papers σ) as H.
  destruct (keys_of key papers σ) as [[ks|e] σ1]; exact H.
Qed.
End Frames.

(** ** Impact ranking *)

Section Impact.
Import CitationAnalyzer.
Variable today : Z.

Lemma velocity_turn_writes (p : loc) (σ : heap) :
  velocity_turn today p σ = (Ok tt, <[p := with_velocity today (σ p)]> σ).
Proof.
  unfold velocity_turn, with_velocity, velocity, published, bind, has_key,
    try_except_value_type, set_velocity, bind, getitem, lift, setitem.
  cbv beta.
  destruct (σ p !! "citation_count") as [c|] eqn:Ec; cbn; [|reflexivity].
  destruct (σ p !! "published_date") as [[| s | | |]|] eqn:Ed; cbn;
    rewrite ?Ed, ?Ec; cbn; try (destruct c; reflexivity).
  destruct (Date.strptime s) as [d|e] eqn:Es; cbn.
  - destruct c; reflexivity.
  - rewrite (strptime_raises _ _ Es). destruct c; reflexivity.
Qed.

Lemma with_velocity_idem (d : dict) :
  with_velocity today (with_velocity today d) = with_velocity today d.
Proof.
  assert (E : velocity today (with_velocity today d) = velocity today d).
  { unfold velocity, published, with_velocity.
    now rewrite !lookup_insert_ne by discriminate. }
  unfold with_velocity at 1. rewrite E. apply insert_insert_eq.
Qed.

Lemma impact_turn_writes (p : loc) (σ : heap) :
  has_velocity (σ p) ->
  impact_turn p σ = (Ok tt, <[p := with_impact_of_fields (σ p)]> σ).
Proof.
  intros [Hc [v Hv]].
  unfold impact_turn, with_impact_of_fields, impact_of_fields, citations,
    stored_velocity, bind, get, lift, setitem, impact.
  rewrite Hv. destruct (σ p !! "citation_count") as [[]|]; try discriminate; reflexivity.
Qed.

Lemma with_impact_of_fields_keeps (d : dict) :
  has_velocity d -> has_velocity (with_impact_of_fields d).
Proof.
  intros [Hc [v Hv]]. unfold has_velocity, with_impact_of_fields.
  rewrite !lookup_insert_ne by discriminate. eauto.
Qed.

Lemma with_impact_of_fields_idem (d : dict) :
  with_impact_of_fields (with_impact_of_fields d) = with_impact_of_fields d.
Proof.
  assert (E : impact_of_fields (with_impact_of_fields d) = impact_of_fields d).
  { unfold impact_of_fields, citations, stored_velocity, with_impact_of_fields.
    now rewrite !lookup_insert_ne by discriminate. }
  unfold with_impact_of_fields at 1. rewrite E. apply insert_insert_eq.
Qed.

Lemma with_impact_of_velocity (d : dict) :
  with_impact_of_fields (with_velocity today d) = with_impact today d.
Proof.
  unfold with_impact_of_fields, with_impact, impact_of_fields, impact_score,
    citations, stored_velocity, with_velocity.
  rewrite lookup_insert_ne by discriminate. now rewrite lookup_insert_eq.
Qed.

Lemma has_velocity_with_velocity (d : dict) :
  number_or_absent (d !! "citation_count") = true ->
  has_velocity (with_velocity today d).
Proof.
  intros H. unfold has_velocity, with_velocity.
  rewrite lookup_insert_ne by discriminate. rewrite lookup_insert_eq. eauto.
Qed.

Lemma impact_score_key_reads (p : loc) (σ : heap) (d : dict) :
  σ p = with_impact today d ->
  impact_score_key p σ = (Ok (impact_score today d), σ).
Proof.
  intros E. unfold impact_score_key, bind, get, lift, with_impact in *.
  now rewrite E, lookup_insert_eq.
Qed.

(** What [rank_papers_by_impact] returns, and the store it leaves. *)
Lemma rank_papers_by_impact_total (papers : list loc) (σ : heap) :
  (forall p, In p papers -> number_or_absent (σ p !! "citation_count") = true) ->
  exists σ',
    rank_papers_by_impact today papers σ
    = (Ok (ranked (fun p => impact_score today (σ p)) papers), σ') /\
    (forall p, In p papers -> σ' p = with_impact today (σ p)) /\
    (forall p, ~ In p papers -> σ' p = σ p).
Proof.
  intros Hnum.
  destruct (for_each_update (velocity_turn today) (with_velocity today) (fun _ => True)
              (fun p σ _ => velocity_turn_writes p σ) (fun _ _ => I)
              (fun d _ => with_velocity_idem d) papers σ (fun _ _ => I))
    as (σ1 & E1 & Hin1 & Hout1).
  destruct (for_each_update impact_turn with_impact_of_fields has_velocity
              impact_turn_writes with_impact_of_fields_keeps
              (fun d _ => with_impact_of_fields_idem d) papers σ1)
    as (σ2 & E2 & Hin2 & Hout2).
  { intros p Hp. rewrite (Hin1 p Hp). now apply has_velocity_with_velocity, Hnum. }
  assert (Hfinal : forall p, In p papers -> σ2 p = with_impact today (σ p)).
  { intros p Hp. now rewrite (Hin2 p Hp), (Hin1 p Hp), with_impact_of_velocity. }
  exists σ2. split; [|split; [exact Hfinal|]].
  - unfold rank_papers_by_impact, calculate_citation_velocity, bind at 1, bind at 1.
    rewrite E1. unfold ret at 1. unfold bind at 1. rewrite E2.
    unfold sorted_by_key_desc, bind.
    rewrite (keys_of_total impact_score_key (fun p => impact_score today (σ p))).
    + reflexivity.
    + intros p Hp. now apply impact_score_key_reads, Hfinal.
  - intros p Hp. now rewrite (Hout2 p Hp), (Hout1 p Hp).
Qed.
End Impact.



(** ** What the stages write *)

Section StageFrames.
Implicit Types (σ : heap) (papers : list loc).

Lemma score_loop_frame (cfg : ArxivParser.keywords_config) papers :
  forall filtered_papers σ,
    writes_only ["match_score"; "match_details"] papers σ
                (snd (ArxivParser.score_loop cfg papers filtered_papers σ)).
Proof.
  induction papers as [|p rest IH]; intros acc σ; [apply writes_only_refl|].
  cbn [ArxivParser.score_loop].
  destruct (ArxivParser.match_keywords cfg (σ p)) as [[s d]|e];
    [|apply writes_only_refl].
  destruct (Qle_bool _ s).
  - unfold bind at 1 2, setitem.
    set (σ1 := <[p := <["match_score" := VNum s]> (σ p)]> σ).
    set (σ2 := <[p := <["match_details" := VDetails d]> (σ1 p)]> σ1).
    eapply writes_only_trans; [|eapply writes_only_weaken; [apply incl_refl | | apply IH]].
    + eapply writes_only_trans.
      * eapply writes_only_weaken; [| |apply (writes_only_insert p "match_score")].
        -- intros k [<-|[]]. now left.
        -- intros q [<-|[]]. now left.
      * eapply writes_only_weaken; [| |apply (writes_only_insert p "match_details")].
        -- intros k [<-|[]]. right. now left.
        -- intros q [<-|[]]. now left.
    + intros q Hq. now right.
  - eapply writes_only_weaken; [apply incl_refl | | apply IH].
    intros q Hq. now right.
Qed.

Lemma match_score_key_frame (p : loc) σ : snd (ArxivParser.match_score_key p σ) = σ.
Proof.
  unfold ArxivParser.match_score_key, bind, getitem, lift.
  now destruct (σ p !! "match_score").
Qed.

Lemma impact_score_key_frame (p : loc) σ : snd (CitationAnalyzer.impact_score_key p σ) = σ.
Proof. reflexivity. Qed.

Lemma filter_papers_by_keywords_frame (cfg : ArxivParser.keywords_config) papers σ :
  writes_only ["match_score"; "match_details"] papers σ
              (snd (ArxivParser.filter_papers_by_keywords cfg papers σ)).
Proof.
  unfold ArxivParser.filter_papers_by_keywords, bind.
  pose proof (score_loop_frame cfg papers [] σ) as H.
  destruct (ArxivParser.score_loop cfg papers [] σ) as [[l|e] σ1]; cbn [snd] in H;
    [|exact H].
  now rewrite (sorted_by_key_desc_frame _ match_score_key_frame).
Qed.

Lemma velocity_turn_frame (today : Z) (p : loc) σ :
  writes_only ["citation_velocity"] [p] σ (snd (CitationAnalyzer.velocity_turn today p σ)).
Proof. rewrite velocity_turn_writes. apply writes_only_insert. Qed.

Lemma impact_turn_frame (p : loc) σ :
  writes_only ["impact_score"] [p] σ (snd (CitationAnalyzer.impact_turn p σ)).
Proof.
  unfold CitationAnalyzer.impact_turn, bind, get, lift, setitem.
  destruct (CitationAnalyzer.impact _ _); [apply writes_only_insert | apply writes_only_refl].
Qed.

Lemma calculate_citation_velocity_frame (today : Z) papers σ :
  writes_only ["citation_velocity"] papers σ
              (snd (CitationAnalyzer.calculate_citation_velocity today papers σ)).
Proof.
  unfold CitationAnalyzer.calculate_citation_velocity, bind.
  pose proof (for_each_frame _ _ (velocity_turn_frame today) papers σ) as H.
  now destruct (for_each papers _ σ) as [[[]|e] σ1].
Qed.

Lemma calculate_citation_velocity_returns (today : Z) papers σ :
  fst (CitationAnalyzer.calculate_citation_velocity today papers σ) = Ok papers.
Proof.
  unfold CitationAnalyzer.calculate_citation_velocity, bind.
  destruct (for_each_update (CitationAnalyzer.velocity_turn today) (with_velocity today)
              (fun _ => True) (fun p σ _ => velocity_turn_writes today p σ) (fun _ _ => I)
              (fun d _ => with_velocity_idem today d) papers σ (fun _ _ => I))
    as (σ1 & E & _).
  now rewrite E.
Qed.

Lemma rank_papers_by_impact_frame (today : Z) papers σ :
  writes_only ["citation_velocity"; "impact_score"] papers σ
              (snd (CitationAnalyzer.rank_papers_by_impact today papers σ)).
Proof.
  unfold CitationAnalyzer.rank_papers_by_impact. unfold bind at 1.
  pose proof (calculate_citation_velocity_frame today papers σ) as H1.
  pose proof (calculate_citation_velocity_returns today papers σ) as H0.
  destruct (CitationAnalyzer.calculate_citation_velocity today papers σ) as [r σ1].
  cbn [fst snd] in *. subst r.
  assert (H1' : writes_only ["citation_velocity"; "impact_score"] papers σ σ1).
  { eapply writes_only_weaken; [|apply incl_refl|exact H1].
    intros k [<-|[]]. now left. }
  unfold bind at 1.
  pose proof (for_each_frame _ _ impact_turn_frame papers σ1) as H2.
  assert (H2' : writes_only ["citation_velocity"; "impact_score"] papers σ1
                  (snd (for_each papers CitationAnalyzer.impact_turn σ1))).
  { eapply writes_only_weaken; [|apply incl_refl|exact H2].
    intros k [<-|[]]. right. now left. }
  destruct (for_each papers CitationAnalyzer.impact_turn σ1) as [[[]|e] σ2];
    cbn [snd] in *.
  - rewrite (sorted_by_key_desc_frame _ impact_score_key_frame).
    eapply writes_only_trans; eassumption.
  - eapply writes_only_trans; eassumption.
Qed.
End StageFrames.



(** ** Malformed papers *)

Section Malformed.
Implicit Types (σ : heap) (papers : list loc).

Lemma match_keywords_untitled (cfg : ArxivParser.keywords_config) (paper : dict) :
  paper !! "title" = None ->
  ArxivParser.match_keywords cfg paper = Raise (KeyError "title").
Proof.
  intros H. unfold ArxivParser.match_keywords, ArxivParser.lowered_field.
  now rewrite H.
Qed.

Lemma match_keywords_no_abstract (cfg : ArxivParser.keywords_config) (paper : dict) :
  is_text (paper !! "title") = true -> paper !! "abstract" = None ->
  ArxivParser.match_keywords cfg paper = Raise (KeyError "abstract").
Proof.
  intros Ht H. unfold ArxivParser.match_keywords, ArxivParser.lowered_field.
  destruct (paper !! "title") as [[]|]; try discriminate. now rewrite H.
Qed.

(** A paper that cannot be scored makes the scoring loop raise. *)
Lemma score_loop_raises (cfg : ArxivParser.keywords_config) σ (p : loc) papers :
  can_score cfg (σ p) = false ->
  In p papers ->
  forall filtered_papers σi,
    (forall q, ArxivParser.match_keywords cfg (σi q) = ArxivParser.match_keywords cfg (σ q)) ->
    exists e, fst (ArxivParser.score_loop cfg papers filtered_papers σi) = Raise e.
Proof.
  intros Hp. induction papers as [|x rest IH]; intros [] acc σi Hinv.
  - subst x. cbn [ArxivParser.score_loop]. rewrite Hinv.
    unfold can_score in Hp.
    destruct (ArxivParser.match_keywords cfg (σ p)) as [|e]; [discriminate|]. eauto.
  - cbn [ArxivParser.score_loop].
    destruct (ArxivParser.match_keywords cfg (σi x)) as [[s d]|e] eqn:E; [|eauto].
    destruct (Qle_bool _ s); [|now apply IH].
    unfold bind at 1 2, setitem. apply IH; [assumption|].
    intros q. rewrite <- Hinv. apply match_keywords_agree;
      (destruct (Nat.eq_dec x q) as [<- | Hne];
       [ rewrite fn_lookup_insert, lookup_insert_ne by discriminate;
         rewrite fn_lookup_insert; now rewrite lookup_insert_ne by discriminate
       | now rewrite !fn_lookup_insert_ne by assumption ]).
Qed.

Lemma filter_papers_by_keywords_raises (cfg : ArxivParser.keywords_config) σ (p : loc) papers :
  In p papers -> can_score cfg (σ p) = false ->
  exists e, fst (ArxivParser.filter_papers_by_keywords cfg papers σ) = Raise e.
Proof.
  intros Hin Hp.
  destruct (score_loop_raises cfg σ p papers Hp Hin [] σ (fun _ => eq_refl)) as [e He].
  exists e. unfold ArxivParser.filter_papers_by_keywords, bind.
  destruct (ArxivParser.score_loop cfg papers [] σ) as [[l|e'] σ1]; cbn [fst] in *;
    [discriminate | exact He].
Qed.

Lemma filter_duplicates_loop_raises σ (p : loc) papers :
  σ p !! "id" = None -> In p papers ->
  forall seen unique_papers,
    exists e, fst (PaperFilter.filter_duplicates_loop papers seen unique_papers σ) = Raise e.
Proof.
  intros Hp. induction papers as [|x rest IH]; intros [] seen acc.
  - subst x. cbn [PaperFilter.filter_duplicates_loop]. unfold bind, getitem.
    rewrite Hp. eauto.
  - cbn [PaperFilter.filter_duplicates_loop]. unfold bind, getitem, lift.
    destruct (σ x !! "id") as [v|]; [|eauto].
    destruct (PaperFilter.not_in_set v seen) as [[]|e]; [now apply IH | now apply IH | eauto].
Qed.
End Malformed.

(** C6, as amended.  The date filter leaves out, without raising, the
    papers that have no publication date or whose date text does not
    parse; the category filter leaves out, without raising, the papers
    that have no categories.  A paper without a title or without an
    abstract makes [match_keywords] raise [KeyError], and so does
    [filter_papers_by_keywords] on any list that holds such a paper; a
    paper without an identifier makes [filter_duplicates] raise. *)
Theorem malformed_papers (σ : heap) (papers : list loc) :
  (forall today days,
     0 <= days < today -> today <= Date.MAXORDINAL ->
     (forall p, In p papers -> text_or_absent (σ p !! "published_date") = true) ->
     exists out,
       PaperFilter.filter_by_date today papers days σ = (Ok out, σ) /\
       forall p, published (σ p) = None -> ~ In p out) /\
  (forall categories,
     (forall p, In p papers -> list_or_absent (σ p !! "categories") = true) ->
     exists out,
       PaperFilter.filter_by_category papers categories σ = (Ok out, σ) /\
       forall p, σ p !! "categories" = None -> ~ In p out) /\
  (forall cfg p,
     In p papers ->
     (σ p !! "title" = None ->
      ArxivParser.match_keywords cfg (σ p) = Raise (KeyError "title")) /\
     (is_text (σ p !! "title") = true -> σ p !! "abstract" = None ->
      ArxivParser.match_keywords cfg (σ p) = Raise (KeyError "abstract")) /\
     (can_score cfg (σ p) = false ->
      exists e, fst (ArxivParser.filter_papers_by_keywords cfg papers σ) = Raise e)) /\
  (forall p,
     In p papers -> σ p !! "id" = None ->
     exists e, fst (PaperFilter.filter_duplicates papers σ) = Raise e).
Proof.
  split; [|split; [|split]].
  - intros today days Hd Ht Hwf. eexists. split; [now apply filter_by_date_total|].
    intros p Hp Hin. apply filter_In in Hin as [_ Hin].
    unfold in_window in Hin. now rewrite Hp in Hin.
  - intros categories Hwf. eexists. split; [now apply filter_by_category_total|].
    intros p Hp Hin. apply filter_In in Hin as [_ Hin].
    unfold shares_category in Hin. now rewrite Hp in Hin.
  - intros cfg p Hin. split; [apply match_keywords_untitled|].
    split; [apply match_keywords_no_abstract|].
    intros Hc. exact (filter_papers_by_keywords_raises cfg σ p papers Hin Hc).
  - intros p Hin Hp. exact (filter_duplicates_loop_raises σ p papers Hp Hin [] []).
Qed.

Lemma malformed_papers_witness :
  exists e,
    fst (ArxivParser.filter_papers_by_keywords Examples.taxonomy [0; 1]%nat
           (Examples.store [Examples.paper_a; Examples.paper_untitled])) = Raise e.
Proof.
  refine (proj2 (proj2 (proj1 (proj2 (proj2
            (malformed_papers (Examples.store [Examples.paper_a; Examples.paper_untitled])
                              [0; 1]%nat)))
            Examples.taxonomy 1%nat _)) _).
  - right. now left.
  - vm_compute; reflexivity.
Defined.

(** C6 as stated fails: a paper without a title is not left out by the
    keyword filter; the filter raises [KeyError]. *)
Lemma untitled_paper_aborts :
  ~ (forall cfg papers σ p,
       In p papers -> σ p !! "title" = None ->
       exists out σ',
         ArxivParser.filter_papers_by_keywords cfg papers σ = (Ok out, σ') /\
         ~ In p out).
Proof.
  intros H.
  destruct (H Examples.taxonomy [0; 1]%nat
              (Examples.store [Examples.paper_a; Examples.paper_untitled]) 1%nat)
    as (out & σ' & E & _).
  - right. now left.
  - vm_compute; reflexivity.
  - apply (f_equal fst) in E. vm_compute in E. discriminate E.
Qed.

(** ** Deduplication and bounding of a ranked list *)

Lemma sublist_In (l1 l2 : list loc) (x : loc) : sublist l1 l2 -> In x l1 -> In x l2.
Proof.
  induction 1 as [|y l1 l2 Hsub IH|y l1 l2 Hsub IH]; cbn; [tauto | | ].
  - intros [-> | Hx]; [now left | right; now apply IH].
  - intros Hx. right. now apply IH.
Qed.

Section FirstById.
Variable id : loc -> string.

Lemma list_contains_cons (x y : string) (l : list string) :
  list_contains x (y :: l) = String.eqb x y || list_contains x l.
Proof. reflexivity. Qed.

Lemma list_contains_In (x : string) (l : list string) :
  list_contains x l = true <-> In x l.
Proof.
  unfold list_contains. rewrite existsb_exists. split.
  - intros (y & Hy & E). apply String.eqb_eq in E. now subst.
  - intros H. exists x. split; [exact H | apply String.eqb_refl].
Qed.

Lemma first_by_id_sublist (papers : list loc) :
  forall seen, sublist (first_by_id id seen papers) papers.
Proof.
  induction papers as [|p rest IH]; intros seen; cbn; [constructor|].
  destruct (list_contains (id p) seen); constructor; apply IH.
Qed.

Lemma first_by_id_fresh (papers : list loc) :
  forall seen x, In x (first_by_id id seen papers) -> list_contains (id x) seen = false.
Proof.
  induction papers as [|p rest IH]; intros seen x; cbn; [intros []|].
  destruct (list_contains (id p) seen) eqn:E; [apply IH|].
  intros [<- | Hx]; [exact E|].
  apply IH in Hx. rewrite list_contains_cons in Hx.
  now apply orb_false_elim in Hx.
Qed.

Lemma first_by_id_NoDup (papers : list loc) :
  forall seen, List.NoDup (map id (first_by_id id seen papers)).
Proof.
  induction papers as [|p rest IH]; intros seen; cbn; [constructor|].
  destruct (list_contains (id p) seen); [apply IH|].
  cbn. constructor; [|apply IH].
  intros Hin. apply in_map_iff in Hin as (x & Ex & Hx).
  apply first_by_id_fresh in Hx. rewrite list_contains_cons, Ex in Hx.
  now rewrite String.eqb_refl in Hx.
Qed.

(** In a list ordered by [R], every paper whose identifier is not in
    [seen] has a namesake in the result that stands before it. *)
Lemma first_by_id_best (R : relation loc) (papers : list loc) :
  (forall x, R x x) -> StronglySorted R papers ->
  forall seen x,
    In x papers -> list_contains (id x) seen = false ->
    exists y, In y (first_by_id id seen papers) /\ id y = id x /\ R y x.
Proof.
  intros Hrefl Hs. induction Hs as [|p rest Hs IH Hp]; intros seen x; [intros []|].
  cbn [first_by_id]. intros Hx Hfresh.
  destruct (list_contains (id p) seen) eqn:E.
  - destruct Hx as [<- | Hx]; [congruence|]. now apply IH.
  - destruct Hx as [<- | Hx]; [exists p; repeat split; [now left | apply Hrefl]|].
    destruct (String.eqb (id x) (id p)) eqn:Ex.
    + apply String.eqb_eq in Ex. exists p. split; [now left|]. split; [now symmetry|].
      rewrite List.Forall_forall in Hp. now apply Hp.
    + destruct (IH (id p :: seen) x Hx) as (y & Hy & Ey & Ry).
      { rewrite list_contains_cons, Ex. exact Hfresh. }
      exists y. split; [now right | now split].
Qed.

Lemma length_first_by_id (papers : list loc) :
  length (first_by_id id [] papers) = distinct (map id papers).
Proof.
  unfold distinct.
  assert (E : (list_to_set (map id papers) : gset string)
              = list_to_set (map id (first_by_id id [] papers))).
  { apply set_eq. intros i. rewrite !elem_of_list_to_set, !list_elem_of_In, !in_map_iff.
    split.
    - intros (x & <- & Hx).
      destruct (first_by_id_best (fun _ _ => True) papers) with (seen := @nil string) (x := x)
        as (y & Hy & Ey & _); auto.
      + clear. induction papers; constructor; [assumption|].
        apply List.Forall_forall. auto.
      + eauto.
    - intros (x & <- & Hx). exists x. split; [reflexivity|].
      eapply sublist_In; [apply first_by_id_sublist | exact Hx]. }
  rewrite E, size_list_to_set, length_map; [reflexivity|].
  apply NoDup_ListNoDup, first_by_id_NoDup.
Qed.

Lemma first_by_id_ext (id' : loc -> string) (papers : list loc) :
  (forall p, In p papers -> id' p = id p) ->
  forall seen, first_by_id id' seen papers = first_by_id id seen papers.
Proof.
  induction papers as [|p rest IH]; intros Hid seen; [reflexivity|].
  cbn. rewrite (Hid p (or_introl eq_refl)).
  rewrite !IH by (intros q Hq; apply Hid; now right). reflexivity.
Qed.
End FirstById.

Lemma sublist_sorted (R : relation loc) (l1 l2 : list loc) :
  sublist l1 l2 -> StronglySorted R l2 -> StronglySorted R l1.
Proof.
  induction 1 as [|x l1 l2 Hsub IH|x l1 l2 Hsub IH]; intros Hs.
  - constructor.
  - inversion Hs as [|? ? Hs' Hx]; subst. constructor; [now apply IH|].
    rewrite List.Forall_forall in *. intros y Hy. apply Hx.
    eapply sublist_In; eassumption.
  - inversion Hs; subst. now apply IH.
Qed.

(** The head of a descending list dominates what is cut off. *)
Lemma take_top (R : relation loc) (k : nat) (l : list loc) :
  StronglySorted R l ->
  forall y, In y l -> In y (take k l) \/ forall q, In q (take k l) -> R q y.
Proof.
  intros Hs y Hy. rewrite <- (take_drop k l) in Hy, Hs.
  apply in_app_or in Hy as [Hy | Hy]; [now left | right].
  intros q Hq. eapply StronglySorted_app_1_elem_of; [exact Hs | |];
    now apply list_elem_of_In.
Qed.

Lemma filter_filter {A} (f g : A -> bool) (l : list A) :
  List.filter g (List.filter f l) = List.filter (fun x => f x && g x) l.
Proof.
  induction l as [|x l IH]; [reflexivity|]. cbn.
  destruct (f x); cbn; [destruct (g x)|]; now rewrite IH.
Qed.

(** ** The selection *)

Section Selection.
Variables (today : Z) (cfg : Report.config) (kw : ArxivParser.keywords_config).
Variable σ : heap.

Lemma candidate_fields (d : dict) :
  candidate d = true ->
  scorable d = true /\ is_text (d !! "id") = true /\
  text_or_absent (d !! "published_date") = true /\
  list_or_absent (d !! "categories") = true.
Proof.
  unfold candidate. intros H.
  apply andb_prop in H as [H H4]. apply andb_prop in H as [H H3].
  apply andb_prop in H as [H1 H2]. auto.
Qed.

Lemma scorable_can_score (d : dict) :
  scorable d = true -> weights_ok (ArxivParser.weight_factors kw) = true ->
  can_score kw d = true.
Proof.
  intros Hs Hw. unfold can_score.
  destruct (match_keywords_scorable kw d Hs Hw)
    as (t & a & x & y & z1 & z2 & n & _ & _ & _ & _ & _ & _ & _ & E).
  now rewrite E.
Qed.

(** The selection on candidates: the first [max_papers] of the
    eligible papers, ranked by score and with the later namesakes
    dropped. *)
Lemma selected_papers_total (papers : list loc) :
  0 <= Report.recent_days cfg < today -> today <= Date.MAXORDINAL ->
  0 <= Report.max_papers cfg ->
  (forall p, In p papers -> candidate (σ p) = true) ->
  weights_ok (ArxivParser.weight_factors kw) = true ->
  exists σ',
    Report.selected_papers today cfg kw papers σ
    = (Ok (take (Z.to_nat (Report.max_papers cfg))
                (first_by_id (fun p => ident (σ p)) []
                   (ranked (fun p => score kw (σ p))
                      (List.filter
                         (fun p => eligible (today - Report.recent_days cfg)
                                            (Report.categories cfg) kw (σ p))
                         papers)))), σ').
Proof.
  intros Hdays Htoday Hmax Hcand Hw.
  unfold Report.selected_papers. unfold bind at 1.
  rewrite filter_by_date_total; try assumption;
    [|intros p Hp; now apply candidate_fields, Hcand].
  unfold bind at 1. rewrite filter_by_category_total;
    [|intros p Hp; apply filter_In in Hp as [Hp _]; now apply candidate_fields, Hcand].
  rewrite filter_filter.
  set (L2 := List.filter _ papers).
  assert (HL2 : forall p, In p L2 -> In p papers)
    by (intros p Hp; now apply filter_In in Hp).
  unfold bind at 1.
  pose proof (filter_papers_by_keywords_frame kw L2 σ) as [Hframe _].
  destruct (filter_papers_by_keywords_total kw σ L2) as (σ' & E & _).
  { intros p Hp. apply scorable_can_score; [|exact Hw].
    now apply candidate_fields, Hcand, HL2. }
  rewrite E in Hframe |- *. cbn [snd] in Hframe.
  unfold L2 in *. rewrite filter_filter.
  set (L3 := ranked _ _).
  assert (HL3 : forall p, In p L3 -> In p papers).
  { intros p Hp. apply ranked_In, filter_In in Hp as [Hp _]. exact Hp. }
  assert (Hid : forall p, ident (σ' p) = ident (σ p)).
  { intros p. unfold ident. rewrite Hframe; [reflexivity|].
    intros [H|[H|[]]]; discriminate H. }
  unfold bind at 1. rewrite filter_duplicates_total.
  - exists σ'. unfold ret, PaperFilter.limit_papers.
    destruct (Z.leb_spec 0 (Report.max_papers cfg)); [|lia].
    rewrite (first_by_id_ext (fun p => ident (σ p))) by (intros; apply Hid).
    reflexivity.
  - intros p Hp. rewrite Hframe by (intros [H|[H|[]]]; discriminate H).
    now apply candidate_fields, Hcand, HL3.
Qed.
End Selection.



(** * Further properties of the stages *)

(** ** The category filter *)

Lemma shares_category_spec (categories : list string) (paper : dict) :
  shares_category categories paper = true <->
  exists cs c, paper !! "categories" = Some (VList cs) /\ In c categories /\ In c cs.
Proof.
  unfold shares_category. split.
  - destruct (paper !! "categories") as [[| | | cs |]|]; try discriminate.
    intros H. apply existsb_exists in H as (c & Hc & Hin).
    apply list_contains_In in Hin. eauto.
  - intros (cs & c & -> & Hc & Hin). apply existsb_exists. exists c.
    split; [exact Hc | now apply list_contains_In].
Qed.

(** X1.  On papers whose categories are a list or absent, the category
    filter returns, in input order and without touching the store,
    exactly the papers that have one of the categories asked for. *)
Theorem filter_by_category_shares (papers : list loc) (categories : list string) (σ : heap) :
  (forall p, In p papers -> list_or_absent (σ p !! "categories") = true) ->
  exists out,
    PaperFilter.filter_by_category papers categories σ = (Ok out, σ) /\
    sublist out papers /\
    (forall p, In p out <->
       In p papers /\
       exists cs c, σ p !! "categories" = Some (VList cs) /\ In c categories /\ In c cs).
Proof.
  intros Hwf. eexists. split; [now apply filter_by_category_total|].
  split; [apply filter_sublist|].
  intros p. now rewrite filter_In, shares_category_spec.
Qed.

Lemma filter_by_category_shares_witness :
  exists out,
    PaperFilter.filter_by_category [0; 1; 2]%nat ["cs.LG"; "cs.AI"]
      (Examples.store [Examples.paper_a; Examples.paper_b; MoreExamples.paper_uncategorised])
    = (Ok out,
       Examples.store [Examples.paper_a; Examples.paper_b; MoreExamples.paper_uncategorised]) /\
    sublist out [0; 1; 2]%nat.
Proof.
  destruct (filter_by_category_shares [0; 1; 2]%nat ["cs.LG"; "cs.AI"]
              (Examples.store [Examples.paper_a; Examples.paper_b;
                               MoreExamples.paper_uncategorised]))
    as (out & E & Hsub & _).
  - intros p [<-|[<-|[<-|[]]]]; vm_compute; reflexivity.
  - exists out. split; [exact E | exact Hsub].
Defined.

Lemma any_category_raises (v : value) (categories : list string) (e : exn) :
  PaperFilter.any_category v categories = Raise e -> e = TypeError.
Proof.
  induction categories as [|c rest IH]; cbn; [discriminate|].
  destruct (value_contains c v) as [[]|e'] eqn:E; cbn.
  - discriminate.
  - exact IH.
  - intros [= <-]. destruct v; cbn in E; congruence.
Qed.

Lemma any_category_not_a_container (o : option value) (categories : list string) :
  not_a_container o = true -> categories <> [] ->
  PaperFilter.any_category (default (VList []) o) categories = Raise TypeError.
Proof.
  intros Ho Hc. destruct categories as [|c rest]; [congruence|].
  destruct o as [[]|]; try discriminate; reflexivity.
Qed.

(** X2.  When categories are asked for and some paper's categories
    field holds [None] or a number, the category filter raises
    [TypeError]; the store is as it was. *)
Theorem filter_by_category_type_error
  (papers : list loc) (categories : list string) (σ : heap) (p : loc) :
  In p papers -> not_a_container (σ p !! "categories") = true -> categories <> [] ->
  PaperFilter.filter_by_category papers categories σ = (Raise TypeError, σ).
Proof.
  intros Hin Hbad Hne. unfold PaperFilter.filter_by_category.
  generalize (@nil loc) as acc.
  induction papers as [|x rest IH]; intros acc; [destruct Hin|].
  cbn [PaperFilter.filter_by_category_loop]. unfold bind at 1 2, get, lift.
  destruct (PaperFilter.any_category _ categories) as [b|e] eqn:E.
  - destruct Hin as [-> | Hin].
    + rewrite any_category_not_a_container in E by assumption. discriminate.
    + now apply IH.
  - now rewrite (any_category_raises _ _ _ E).
Qed.

Lemma filter_by_category_type_error_witness :
  PaperFilter.filter_by_category [0; 1]%nat ["cs.RO"]
    (Examples.store [Examples.paper_a; MoreExamples.paper_null_categories])
  = (Raise TypeError,
     Examples.store [Examples.paper_a; MoreExamples.paper_null_categories]).
Proof.
  apply (filter_by_category_type_error [0; 1]%nat ["cs.RO"] _ 1%nat).
  - right. now left.
  - vm_compute; reflexivity.
  - discriminate.
Defined.

(** ** Deduplication *)

Lemma first_by_id_first (id : loc -> string) (papers : list loc) :
  forall seen x,
    In x papers -> list_contains (id x) seen = false ->
    exists l1 y l2,
      papers = l1 ++ y :: l2 /\ id y = id x /\
      In y (first_by_id id seen papers) /\
      forall q, In q l1 -> id q <> id x.
Proof.
  induction papers as [|p rest IH]; intros seen x; [intros []|].
  cbn [first_by_id]. intros Hx Hfresh.
  destruct (String.eqb (id p) (id x)) eqn:Epx.
  - apply String.eqb_eq in Epx. rewrite Epx, Hfresh.
    exists [], p, rest. repeat split; [exact Epx | now left | intros q []].
  - assert (Hx' : In x rest).
    { destruct Hx as [-> | Hx]; [|exact Hx]. now rewrite String.eqb_refl in Epx. }
    assert (Hne : id p <> id x) by (intros E; rewrite E, String.eqb_refl in Epx; discriminate).
    destruct (list_contains (id p) seen).
    + destruct (IH seen x Hx' Hfresh) as (l1 & y & l2 & -> & Ey & Hy & Hl1).
      exists (p :: l1), y, l2. repeat split; try assumption.
      intros q [<- | Hq]; [exact Hne | now apply Hl1].
    + destruct (IH (id p :: seen) x Hx') as (l1 & y & l2 & -> & Ey & Hy & Hl1).
      { rewrite list_contains_cons, Hfresh, orb_false_r.
        apply String.eqb_neq. congruence. }
      exists (p :: l1), y, l2. repeat split; try assumption; [now right|].
      intros q [<- | Hq]; [exact Hne | now apply Hl1].
Qed.

Lemma first_by_id_fixed (id : loc -> string) (papers : list loc) :
  forall seen,
    List.NoDup (map id papers) ->
    (forall x, In x papers -> list_contains (id x) seen = false) ->
    first_by_id id seen papers = papers.
Proof.
  induction papers as [|p rest IH]; intros seen Hnd Hfresh; [reflexivity|].
  cbn [first_by_id]. rewrite (Hfresh p (or_introl eq_refl)).
  inversion Hnd as [|? ? Hp Hnd']; subst. f_equal. apply IH; [exact Hnd'|].
  intros x Hx. rewrite list_contains_cons, (Hfresh x (or_intror Hx)), orb_false_r.
  apply String.eqb_neq. intros E. apply Hp. rewrite <- E. now apply in_map.
Qed.

(** X3.  On papers with textual identifiers, [filter_duplicates]
    returns a subsequence of its input in which no identifier occurs
    twice; for every input paper, the first input paper with its
    identifier is kept.  The store is untouched. *)
Theorem filter_duplicates_first_occurrences (papers : list loc) (σ : heap) :
  (forall p, In p papers -> is_text (σ p !! "id") = true) ->
  exists out,
    PaperFilter.filter_duplicates papers σ = (Ok out, σ) /\
    sublist out papers /\
    List.NoDup (map (fun p => ident (σ p)) out) /\
    (forall p, In p papers ->
       exists l1 y l2,
         papers = l1 ++ y :: l2 /\ ident (σ y) = ident (σ p) /\ In y out /\
         forall q, In q l1 -> ident (σ q) <> ident (σ p)).
Proof.
  intros Hwf. eexists. split; [now apply filter_duplicates_total|].
  split; [apply first_by_id_sublist|]. split; [apply first_by_id_NoDup|].
  intros p Hp. now apply (first_by_id_first (fun p => ident (σ p)) papers []).
Qed.

Lemma filter_duplicates_first_occurrences_witness :
  exists out,
    PaperFilter.filter_duplicates [0; 1; 2]%nat
      (Examples.store [Examples.paper_a; Examples.paper_b; MoreExamples.paper_a_again])
    = (Ok out,
       Examples.store [Examples.paper_a; Examples.paper_b; MoreExamples.paper_a_again]) /\
    sublist out [0; 1; 2]%nat.
Proof.
  destruct (filter_duplicates_first_occurrences [0; 1; 2]%nat
              (Examples.store [Examples.paper_a; Examples.paper_b;
                               MoreExamples.paper_a_again]))
    as (out & E & Hsub & _).
  - intros p [<-|[<-|[<-|[]]]]; vm_compute; reflexivity.
  - exists out. split; [exact E | exact Hsub].
Defined.

(** X4.  Deduplicating twice is deduplicating once. *)
Theorem filter_duplicates_idempotent (papers out : list loc) (σ : heap) :
  (forall p, In p papers -> is_text (σ p !! "id") = true) ->
  PaperFilter.filter_duplicates papers σ = (Ok out, σ) ->
  PaperFilter.filter_duplicates out σ = (Ok out, σ).
Proof.
  intros Hwf E. rewrite filter_duplicates_total in E by assumption.
  injection E as <-.
  rewrite filter_duplicates_total.
  - rewrite first_by_id_fixed; [reflexivity | apply first_by_id_NoDup | reflexivity].
  - intros p Hp. apply Hwf. eapply sublist_In; [apply first_by_id_sublist | exact Hp].
Qed.

Lemma filter_duplicates_idempotent_witness :
  PaperFilter.filter_duplicates [0; 1]%nat
    (Examples.store [Examples.paper_a; Examples.paper_b; MoreExamples.paper_a_again])
  = (Ok [0; 1]%nat,
     Examples.store [Examples.paper_a; Examples.paper_b; MoreExamples.paper_a_again]).
Proof.
  apply (filter_duplicates_idempotent [0; 1; 2]%nat).
  - intros p [<-|[<-|[<-|[]]]]; vm_compute; reflexivity.
  - vm_compute; reflexivity.
Defined.

(** ** Bounding *)

(** X5.  [limit_papers] returns a prefix of the list.  With a limit
    that is not negative it has [min(limit, len)] papers; a negative
    limit drops that many papers from the end instead, leaving
    [max(0, len + limit)]. *)
Theorem limit_papers_prefix (papers : list loc) (limit : Z) :
  (exists rest, papers = PaperFilter.limit_papers papers limit ++ rest) /\
  Z.of_nat (length (PaperFilter.limit_papers papers limit))
  = if 0 <=? limit then Z.min limit (Z.of_nat (length papers))
    else Z.max 0 (Z.of_nat (length papers) + limit).
Proof.
  unfold PaperFilter.limit_papers.
  destruct (Z.leb_spec 0 limit); (split; [eexists; symmetry; apply take_drop|]);
    rewrite length_take; lia.
Qed.

(** ** The date filter *)

(** X6.  When [today - days] is no date of the calendar, or [days] is
    beyond what [timedelta] takes, [filter_by_date] raises
    [OverflowError] before it looks at any paper. *)
Theorem filter_by_date_overflow (today days : Z) (papers : list loc) (σ : heap) :
  cutoff_exists today days = false ->
  PaperFilter.filter_by_date today papers days σ = (Raise OverflowError, σ).
Proof.
  unfold cutoff_exists. intros H.
  unfold PaperFilter.filter_by_date, bind, lift, Date.sub_days. now rewrite H.
Qed.

Lemma filter_by_date_overflow_witness :
  PaperFilter.filter_by_date Examples.today [0%nat] 1000000
    (Examples.store [MoreExamples.paper_null_date])
  = (Raise OverflowError, Examples.store [MoreExamples.paper_null_date]).
Proof. apply filter_by_date_overflow. vm_compute; reflexivity. Defined.

(** X7.  When the cutoff exists and some paper's publication date is
    present but is not text, [filter_by_date] raises [TypeError]: that
    exception is not among those it skips a paper for. *)
Theorem filter_by_date_type_error
  (today days : Z) (papers : list loc) (σ : heap) (p : loc) :
  cutoff_exists today days = true ->
  In p papers -> present_not_text (σ p !! "published_date") = true ->
  PaperFilter.filter_by_date today papers days σ = (Raise TypeError, σ).
Proof.
  unfold cutoff_exists. intros Hc Hin Hbad.
  unfold PaperFilter.filter_by_date, bind at 1, lift, Date.sub_days. rewrite Hc.
  generalize (@nil loc) as acc.
  induction papers as [|x rest IH]; intros acc; [destruct Hin|].
  cbn [PaperFilter.filter_by_date_loop]. unfold bind at 1.
  rewrite filter_by_date_turn.
  destruct (text_or_absent (σ x !! "published_date")) eqn:E; [|reflexivity].
  destruct Hin as [-> | Hin]; [|now apply IH].
  destruct (σ p !! "published_date") as [[]|]; discriminate.
Qed.

Lemma filter_by_date_type_error_witness :
  PaperFilter.filter_by_date Examples.today [0; 1]%nat 2
    (Examples.store [Examples.paper_a; MoreExamples.paper_null_date])
  = (Raise TypeError, Examples.store [Examples.paper_a; MoreExamples.paper_null_date]).
Proof.
  apply (filter_by_date_type_error Examples.today 2 [0; 1]%nat _ 1%nat).
  - vm_compute; reflexivity.
  - right. now left.
  - vm_compute; reflexivity.
Defined.

Lemma filter_sublist_weaker {A} (f g : A -> bool) (l : list A) :
  (forall x, In x l -> f x = true -> g x = true) ->
  sublist (List.filter f l) (List.filter g l).
Proof.
  induction l as [|x l IH]; intros H; cbn; [constructor|].
  assert (IH' : sublist (List.filter f l) (List.filter g l))
    by (apply IH; intros y Hy; apply H; now right).
  destruct (f x) eqn:Ef.
  - rewrite (H x (or_introl eq_refl) Ef). now constructor.
  - destruct (g x); [now constructor | exact IH'].
Qed.

Lemma filter_ext_in {A} (f g : A -> bool) (l : list A) :
  (forall x, In x l -> f x = g x) -> List.filter f l = List.filter g l.
Proof.
  induction l as [|x l IH]; intros H; cbn; [reflexivity|].
  rewrite (H x (or_introl eq_refl)), IH; [reflexivity|].
  intros y Hy. apply H. now right.
Qed.

Lemma filter_by_date_inv (today days : Z) (papers out : list loc) (σ : heap) :
  fst (PaperFilter.filter_by_date today papers days σ) = Ok out ->
  out = List.filter (fun p => in_window (today - days) (σ p)) papers.
Proof.
  unfold PaperFilter.filter_by_date, bind at 1, lift.
  destruct (Date.sub_days today days) as [cutoff|] eqn:Hc; [|discriminate].
  apply sub_days_inv in Hc as ->.
  intros H. now apply filter_by_date_loop_inv in H.
Qed.

(** X8.  A wider window keeps at least the papers of a narrower one, in
    the same order. *)
Theorem filter_by_date_wider_window
  (today days days' : Z) (papers out out' : list loc) (σ : heap) :
  days <= days' ->
  PaperFilter.filter_by_date today papers days σ = (Ok out, σ) ->
  PaperFilter.filter_by_date today papers days' σ = (Ok out', σ) ->
  sublist out out'.
Proof.
  intros Hle E E'.
  apply (f_equal fst) in E, E'. cbn [fst] in E, E'.
  apply filter_by_date_inv in E as ->. apply filter_by_date_inv in E' as ->.
  apply filter_sublist_weaker. intros p _. unfold in_window.
  destruct (published (σ p)); [|discriminate].
  rewrite !Z.leb_le. lia.
Qed.

Lemma filter_by_date_wider_window_witness : sublist [0%nat] [0; 1]%nat.
Proof.
  apply (filter_by_date_wider_window Examples.today 1 2 [0; 1; 2]%nat [0%nat] [0; 1]%nat
           (Examples.store [Examples.paper_a; Examples.paper_c; Examples.paper_undated])).
  - lia.
  - vm_compute; reflexivity.
  - vm_compute; reflexivity.
Defined.

Lemma filter_by_date_total_cutoff (today days : Z) (papers : list loc) (σ : heap) :
  cutoff_exists today days = true ->
  (forall p, In p papers -> text_or_absent (σ p !! "published_date") = true) ->
  PaperFilter.filter_by_date today papers days σ
  = (Ok (List.filter (fun p => in_window (today - days) (σ p)) papers), σ).
Proof.
  unfold cutoff_exists. intros Hc Hwf.
  unfold PaperFilter.filter_by_date, bind at 1, lift, Date.sub_days. rewrite Hc.
  now apply filter_by_date_loop_total.
Qed.

(** X9.  On papers whose date is text or absent and whose categories
    are a list or absent, the date filter and the category filter can be
    applied in either order: the result is the same. *)
Theorem date_and_category_filters_commute
  (today days : Z) (papers : list loc) (categories : list string) (σ : heap) :
  cutoff_exists today days = true ->
  (forall p, In p papers ->
     text_or_absent (σ p !! "published_date") = true /\
     list_or_absent (σ p !! "categories") = true) ->
  exists out,
    (l <- PaperFilter.filter_by_date today papers days ;;
     PaperFilter.filter_by_category l categories)%py σ = (Ok out, σ) /\
    (l <- PaperFilter.filter_by_category papers categories ;;
     PaperFilter.filter_by_date today l days)%py σ = (Ok out, σ).
Proof.
  intros Hc Hwf. eexists. split.
  - unfold bind. rewrite filter_by_date_total_cutoff; [|exact Hc|intros p Hp; now apply Hwf].
    rewrite filter_by_category_total; [reflexivity|].
    intros p Hp. apply filter_In in Hp as [Hp _]. now apply Hwf.
  - unfold bind. rewrite filter_by_category_total by (intros p Hp; now apply Hwf).
    rewrite filter_by_date_total_cutoff; [|exact Hc|].
    + rewrite !filter_filter. do 2 f_equal. apply filter_ext_in. intros p _. apply andb_comm.
    + intros p Hp. apply filter_In in Hp as [Hp _]. now apply Hwf.
Qed.

Lemma date_and_category_filters_commute_witness :
  exists out,
    (l <- PaperFilter.filter_by_date Examples.today [0; 1; 2]%nat 1 ;;
     PaperFilter.filter_by_category l ["cs.RO"])%py
      (Examples.store [Examples.paper_a; Examples.paper_c; MoreExamples.paper_uncategorised])
    = (Ok out,
       Examples.store [Examples.paper_a; Examples.paper_c; MoreExamples.paper_uncategorised]).
Proof.
  destruct (date_and_category_filters_commute Examples.today 1 [0; 1; 2]%nat ["cs.RO"]
              (Examples.store [Examples.paper_a; Examples.paper_c;
                               MoreExamples.paper_uncategorised]))
    as (out & E & _).
  - vm_compute; reflexivity.
  - intros p [<-|[<-|[<-|[]]]]; vm_compute; split; reflexivity.
  - exists out. exact E.
Defined.

(** ** More on the keyword scorer *)

Lemma lower_ascii_idem (c : ascii) : lower_ascii (lower_ascii c) = lower_ascii c.
Proof.
  destruct c as [[] [] [] [] [] [] [] []]; reflexivity.
Qed.

Lemma lower_idem (s : string) : lower (lower s) = lower s.
Proof.
  induction s as [|c s IH]; cbn; [reflexivity|]. now rewrite lower_ascii_idem, IH.
Qed.



(** What a successful [match_keywords] has computed. *)
Lemma match_keywords_inv (cfg : ArxivParser.keywords_config) (paper : dict)
  (s : Q) (d : match_details) :
  ArxivParser.match_keywords cfg paper = Ok (s, d) ->
  exists title abstract,
    paper !! "title" = Some (VStr title) /\
    paper !! "abstract" = Some (VStr abstract) /\
    s = ArxivParser.match_score_of d /\
    Forall (hit (ArxivParser.weight_factors cfg) "primary_keyword_match"
                (lower title) (lower abstract)) (primary_matches d) /\
    Forall (hit (ArxivParser.weight_factors cfg) "secondary_keyword_match"
                (lower title) (lower abstract)) (secondary_matches d) /\
    excluded_matches d
    = ArxivParser.excluded (lower title) (lower abstract) (ArxivParser.exclude_keywords cfg) /\
    ArxivParser.preferred_authors paper (ArxivParser.author_preferences cfg) []
    = Ok (author_matches d).
Proof.
  unfold ArxivParser.match_keywords, ArxivParser.lowered_field.
  destruct (paper !! "title") as [[| title | | |]|]; try discriminate.
  destruct (paper !! "abstract") as [[| abstract | | |]|]; try discriminate.
  cbn [rbind].
  destruct (ArxivParser.keyword_matches _ "primary_keyword_match" _ _ _ _)
    as [prim|] eqn:Hp; [|discriminate].
  destruct (ArxivParser.keyword_matches _ "secondary_keyword_match" _ _ _ _)
    as [sec|] eqn:Hs; [|discriminate].
  cbn [rbind].
  destruct (ArxivParser.preferred_authors _ _ _) as [auth|]; [|discriminate].
  cbn [rbind]. intros [= <- <-].
  apply keyword_matches_inv in Hp as (p' & -> & Hp1 & _).
  apply keyword_matches_inv in Hs as (s' & -> & Hs1 & _).
  exists title, abstract. cbn. repeat split; assumption.
Qed.

Lemma total_weight_nonneg (wf : gmap string Q) (tier title abstract : string)
  (l : list match_entry) :
  (forall k v, wf !! k = Some v -> (0 <= v)%Q) ->
  Forall (hit wf tier title abstract) l -> (0 <= total_weight l)%Q.
Proof.
  intros Hwf. induction 1 as [|e l He _ IH]; cbn; [apply Qle_refl|].
  assert (0 <= weight e)%Q.
  { destruct He as [(_ & _ & x & z & Hx & Hz & ->) | (_ & _ & _ & y & z & Hy & Hz & ->)];
      apply Qmult_le_0_compat; eauto. }
  fold (total_weight l). lra.
Qed.

(** X11.  When no weight factor is negative, a score is never below
    -2, and it is not negative unless an exclude keyword matched. *)
Theorem score_lower_bound
  (cfg : ArxivParser.keywords_config) (paper : dict) (s : Q) (d : match_details) :
  (forall k v, ArxivParser.weight_factors cfg !! k = Some v -> (0 <= v)%Q) ->
  ArxivParser.match_keywords cfg paper = Ok (s, d) ->
  (-2 <= s)%Q /\ (excluded_matches d = [] -> 0 <= s)%Q.
Proof.
  intros Hwf E.
  apply match_keywords_inv in E as (t & a & _ & _ & -> & Hp & Hs & _ & _).
  pose proof (total_weight_nonneg _ _ _ _ _ Hwf Hp) as H1.
  pose proof (total_weight_nonneg _ _ _ _ _ Hwf Hs) as H2.
  rewrite match_score_of_sum. unfold ArxivParser.author_bonus, ArxivParser.exclusion_penalty.
  split; [|intros ->]; destruct (author_matches d); try destruct (excluded_matches d); lra.
Qed.

Lemma score_lower_bound_witness : (-2 <= 0)%Q.
Proof.
  refine (proj1 (score_lower_bound Examples.taxonomy Examples.paper_c 0%Q
                   (MatchDetails [MatchEntry "diffusion model" "title" 2%Q] []
                                 ["survey"; "review"] []) _ _)).
  - intros k v. unfold Examples.taxonomy, Examples.weights. cbn [ArxivParser.weight_factors].
    rewrite !lookup_insert.
    repeat case_decide;
      first [intros [= <-]; vm_compute; discriminate | rewrite lookup_empty; discriminate].
  - vm_compute; reflexivity.
Defined.



(** ** Ranking twice *)

Lemma keyed_sorted (sc : loc -> Q) (l : list loc) :
  StronglySorted (before sc) l -> StronglySorted desc (map (fun p => (sc p, p)) l).
Proof.
  induction 1 as [|x l Hs IH Hx]; cbn; constructor; [exact IH|].
  rewrite List.Forall_forall in *. intros y Hy.
  apply in_map_iff in Hy as (q & <- & Hq). exact (Hx q Hq).
Qed.

(** A list in descending order is ranked already. *)
Lemma ranked_fixed (sc : loc -> Q) (l : list loc) :
  StronglySorted (before sc) l -> ranked sc l = l.
Proof.
  intros Hs. unfold ranked.
  rewrite <- (sort_desc_unique (map (fun p => (sc p, p)) l) (map (fun p => (sc p, p)) l));
    [|now apply keyed_sorted|reflexivity].
  rewrite map_map. cbn. apply map_id.
Qed.

Lemma ranked_ext (sc sc' : loc -> Q) (l : list loc) :
  (forall p, sc' p = sc p) -> ranked sc' l = ranked sc l.
Proof.
  intros H. unfold ranked. do 2 f_equal. apply map_ext. intros p. now rewrite H.
Qed.

Lemma filter_all {A} (f : A -> bool) (l : list A) :
  (forall x, In x l -> f x = true) -> List.filter f l = l.
Proof.
  induction l as [|x l IH]; intros H; cbn; [reflexivity|].
  rewrite (H x (or_introl eq_refl)), IH; [reflexivity|].
  intros y Hy. apply H. now right.
Qed.

Lemma scored_scored (cfg : ArxivParser.keywords_config) (d : dict) :
  scored cfg (scored cfg d) = scored cfg d.
Proof.
  unfold scored at 1. rewrite match_keywords_scored.
  destruct (ArxivParser.match_keywords cfg d) as [[s dt]|] eqn:E; [|reflexivity].
  now apply scored_again.
Qed.

(** X13.  Keyword filtering is idempotent: applied to its own result,
    in the store it left, it returns the same list in the same order
    and leaves every paper as it is. *)
Theorem filter_papers_by_keywords_idempotent
  (cfg : ArxivParser.keywords_config) (papers out : list loc) (σ σ' : heap) :
  (forall p, In p papers -> can_score cfg (σ p) = true) ->
  ArxivParser.filter_papers_by_keywords cfg papers σ = (Ok out, σ') ->
  exists σ'',
    ArxivParser.filter_papers_by_keywords cfg out σ' = (Ok out, σ'') /\
    forall p, σ'' p = σ' p.
Proof.
  intros Hcan E.
  destruct (filter_papers_by_keywords_total cfg σ papers Hcan) as (σ1 & E1 & Hin & Hout).
  rewrite E1 in E. injection E as <- <-.
  set (out := ranked _ _) in *.
  assert (Hmem : forall p, In p out -> In p papers /\ qualifies cfg (σ p) = true).
  { intros p Hp. unfold out in Hp. now apply ranked_In, filter_In in Hp. }
  assert (Hmk : forall p, ArxivParser.match_keywords cfg (σ1 p)
                          = ArxivParser.match_keywords cfg (σ p)).
  { intros p.
    destruct (in_dec Nat.eq_dec p papers) as [Hp|Hp];
      [destruct (qualifies cfg (σ p)) eqn:Hq|].
    - rewrite (Hin p Hp Hq). apply match_keywords_scored.
    - rewrite Hout; [reflexivity|]. intros [_ H]. congruence.
    - rewrite Hout; [reflexivity|]. now intros [H _]. }
  assert (Hsc : forall p, score cfg (σ1 p) = score cfg (σ p))
    by (intros p; unfold score; now rewrite Hmk).
  assert (Hq : forall p, qualifies cfg (σ1 p) = qualifies cfg (σ p))
    by (intros p; unfold qualifies; now rewrite Hsc).
  destruct (filter_papers_by_keywords_total cfg σ1 out) as (σ2 & E2 & Hin2 & Hout2).
  { intros p Hp. unfold can_score. rewrite Hmk. apply Hcan. now apply Hmem. }
  exists σ2. split.
  - rewrite E2. do 2 f_equal.
    rewrite (ranked_ext (fun p => score cfg (σ p)) _ _ Hsc).
    rewrite filter_all by (intros p Hp; rewrite Hq; now apply Hmem).
    apply ranked_fixed. apply ranked_sorted.
  - intros p. destruct (in_dec Nat.eq_dec p out) as [Hp|Hp].
    + destruct (Hmem p Hp) as [Hp1 Hp2].
      rewrite (Hin2 p Hp) by (now rewrite Hq). rewrite (Hin p Hp1 Hp2).
      apply scored_scored.
    + apply Hout2. now intros [H _].
Qed.

Lemma filter_papers_by_keywords_idempotent_witness :
  exists σ'',
    ArxivParser.filter_papers_by_keywords Examples.taxonomy [2%nat]
      (snd (ArxivParser.filter_papers_by_keywords Examples.taxonomy [0; 1; 2]%nat
              (Examples.store [Examples.paper_b; Examples.paper_c; Examples.paper_a])))
    = (Ok [2%nat], σ'').
Proof.
  destruct (filter_papers_by_keywords_idempotent Examples.taxonomy [0; 1; 2]%nat [2%nat]
              (Examples.store [Examples.paper_b; Examples.paper_c; Examples.paper_a])
              (snd (ArxivParser.filter_papers_by_keywords Examples.taxonomy [0; 1; 2]%nat
                      (Examples.store [Examples.paper_b; Examples.paper_c; Examples.paper_a]))))
    as (σ'' & E & _).
  - intros p [<-|[<-|[<-|[]]]]; vm_compute; reflexivity.
  - rewrite (surjective_pairing (ArxivParser.filter_papers_by_keywords _ _ _)).
    f_equal.
  - exists σ''. exact E.
Defined.

(** ** Key findings *)

Section Strings.
Local Open Scope string_scope.

Lemma sapp_cons (c : ascii) (s t : string) : String c s ++ t = String c (s ++ t).
Proof. reflexivity. Qed.

Lemma sapp_nil_r (s : string) : s ++ "" = s.
Proof. induction s as [|c s IH]; [reflexivity|]. now rewrite sapp_cons, IH. Qed.

Lemma sapp_assoc (s t u : string) : (s ++ t) ++ u = s ++ (t ++ u).
Proof. induction s as [|c s IH]; [reflexivity|]. now rewrite !sapp_cons, IH. Qed.

Lemma sapp_snoc (s t : string) (c : ascii) : (s ++ String c "") ++ t = s ++ String c t.
Proof. now rewrite sapp_assoc. Qed.

(** [re.split] cuts the text at single white space characters: the
    pieces with those characters between them are the text. *)
Lemma split_from_interleave (rest : string) :
  forall before current,
    exists seps,
      length (ArxivParser.split_from before current rest) = S (length seps) /\
      Forall (fun c => ArxivParser.isspace c = true) seps /\
      interleave (ArxivParser.split_from before current rest) seps = current ++ rest.
Proof.
  induction rest as [|c rest IH]; intros before current; cbn [ArxivParser.split_from].
  - exists []. cbn. now rewrite sapp_nil_r.
  - destruct (ArxivParser.sentence_break before c) eqn:E.
    + destruct (IH (c :: before) "") as (seps & Hlen & Hsp & Hint).
      exists (c :: seps). cbn [length]. split; [now rewrite Hlen|]. split.
      * constructor; [|exact Hsp]. unfold ArxivParser.sentence_break in E.
        now apply andb_prop in E as [_ E].
      * cbn [interleave]. now rewrite Hint.
    + destruct (IH (c :: before) (current ++ String c "")) as (seps & Hlen & Hsp & Hint).
      exists seps. now rewrite Hint, sapp_snoc.
Qed.

Lemma interleave_piece (pieces : list string) :
  forall seps p,
    In p pieces -> length pieces = S (length seps) ->
    exists pre post, interleave pieces seps = pre ++ p ++ post.
Proof.
  induction pieces as [|x pieces IH]; intros seps p; [intros []|].
  intros Hin Hlen. destruct seps as [|c seps]; cbn [interleave].
  - destruct pieces; [|discriminate]. destruct Hin as [-> | []].
    exists "", "". now rewrite sapp_nil_r.
  - destruct Hin as [-> | Hin].
    + exists "", (String c (interleave pieces seps)). reflexivity.
    + destruct (IH seps p Hin) as (pre & post & ->); [cbn in Hlen; lia|].
      exists (x ++ String c pre), post. now rewrite sapp_assoc, sapp_cons.
Qed.
End Strings.

(** X14.  Splitting an abstract into sentences loses nothing but one
    white space character at each cut: the sentences, with those
    characters put back between them, are the abstract. *)
Theorem split_sentences_restores (abstract : string) :
  exists seps,
    length (ArxivParser.split_sentences abstract) = S (length seps) /\
    Forall (fun c => ArxivParser.isspace c = true) seps /\
    interleave (ArxivParser.split_sentences abstract) seps = abstract.
Proof. apply (split_from_interleave abstract [] EmptyString). Qed.

Section Strip.
Local Open Scope string_scope.

Lemma lstrip_suffix (s : string) : exists pre, s = pre ++ ArxivParser.lstrip s.
Proof.
  induction s as [|c s [pre IH]]; cbn [ArxivParser.lstrip]; [now exists ""|].
  destruct (ArxivParser.isspace c); [|now exists ""].
  exists (String c pre). now rewrite sapp_cons, <- IH.
Qed.

Lemma rstrip_prefix (s : string) : exists post, s = ArxivParser.rstrip s ++ post.
Proof.
  induction s as [|c s [post IH]]; cbn [ArxivParser.rstrip]; [now exists ""|].
  destruct (ArxivParser.rstrip s) as [|c' r] eqn:E.
  - destruct (ArxivParser.isspace c); [now exists (String c s)|].
    exists s. reflexivity.
  - exists post. now rewrite sapp_cons, <- IH.
Qed.

Lemma strip_excerpt (s : string) : exists pre post, s = pre ++ ArxivParser.strip s ++ post.
Proof.
  destruct (lstrip_suffix s) as [pre Hpre].
  destruct (rstrip_prefix (ArxivParser.lstrip s)) as [post Hpost].
  exists pre, post. unfold ArxivParser.strip. now rewrite <- Hpost.
Qed.

Lemma rstrip_idem (s : string) : ArxivParser.rstrip (ArxivParser.rstrip s) = ArxivParser.rstrip s.
Proof.
  induction s as [|c s IH]; [reflexivity|]. cbn [ArxivParser.rstrip].
  destruct (ArxivParser.rstrip s) as [|c' r] eqn:E.
  - destruct (ArxivParser.isspace c) eqn:Ec; [reflexivity|].
    cbn [ArxivParser.rstrip]. now rewrite Ec.
  - cbn [ArxivParser.rstrip]. cbn [ArxivParser.rstrip] in IH. now rewrite IH.
Qed.

(** The text is empty or begins with a character that is not white
    space. *)
Lemma lstrip_clean (s : string) :
  match ArxivParser.lstrip s with
  | "" => True
  | String c _ => ArxivParser.isspace c = false
  end.
Proof.
  induction s as [|c s IH]; cbn [ArxivParser.lstrip]; [exact I|].
  destruct (ArxivParser.isspace c) eqn:E; [exact IH | exact E].
Qed.

Lemma lstrip_rstrip_clean (s : string) :
  match s with "" => True | String c _ => ArxivParser.isspace c = false end ->
  ArxivParser.lstrip (ArxivParser.rstrip s) = ArxivParser.rstrip s.
Proof.
  destruct s as [|c s]; [reflexivity|]. intros Hc. cbn [ArxivParser.rstrip].
  destruct (ArxivParser.rstrip s); rewrite ?Hc; cbn [ArxivParser.lstrip]; now rewrite Hc.
Qed.

Lemma strip_trimmed (s : string) : trimmed (ArxivParser.strip s).
Proof.
  unfold trimmed, ArxivParser.strip. split; [|apply rstrip_idem].
  apply lstrip_rstrip_clean, lstrip_clean.
Qed.
End Strip.

Lemma split_sentences_nonempty (abstract : string) :
  ArxivParser.split_sentences abstract <> [].
Proof.
  destruct (split_from_interleave abstract [] EmptyString) as (seps & Hlen & _).
  fold (ArxivParser.split_sentences abstract) in Hlen.
  destruct (ArxivParser.split_sentences abstract); [discriminate Hlen | discriminate].
Qed.

Lemma from_end_In (k : nat) (l : list string) :
  (0 < k <= length l)%nat -> In (ArxivParser.from_end k l) l.
Proof. intros H. unfold ArxivParser.from_end. apply nth_In. lia. Qed.

(** Every key finding is a stripped sentence. *)
Lemma extract_key_findings_sentences (abstract f : string) :
  In f (ArxivParser.extract_key_findings abstract) ->
  exists s, In s (ArxivParser.split_sentences abstract) /\ f = ArxivParser.strip s.
Proof.
  unfold ArxivParser.extract_key_findings.
  pose proof (split_sentences_nonempty abstract) as Hne.
  set (sentences := ArxivParser.split_sentences abstract) in *.
  destruct (map ArxivParser.strip (List.filter ArxivParser.has_indicator sentences))
    as [|x fs] eqn:E.
  - destruct (Nat.ltb_spec 1 (length sentences)).
    + intros [<- | [<- | []]];
        [exists (ArxivParser.from_end 2 sentences) | exists (ArxivParser.from_end 1 sentences)];
        (split; [apply from_end_In; lia | reflexivity]).
    + destruct sentences as [|s0 rest] eqn:Es; [congruence|].
      intros [<- | []]. exists (ArxivParser.from_end 1 (s0 :: rest)).
      split; [apply from_end_In; cbn; lia | reflexivity].
  - rewrite <- E. intros Hf. apply in_map_iff in Hf as (s & <- & Hs).
    apply filter_In in Hs as [Hs _]. eauto.
Qed.

(** X15.  [extract_key_findings] never returns an empty list, whatever
    the abstract: without an indicator phrase it falls back on the last
    sentences, and there is always a sentence. *)
Theorem extract_key_findings_nonempty (abstract : string) :
  ArxivParser.extract_key_findings abstract <> [].
Proof.
  unfold ArxivParser.extract_key_findings.
  pose proof (split_sentences_nonempty abstract) as Hne.
  destruct (map ArxivParser.strip _) as [|x fs]; [|discriminate].
  destruct (1 <? length (ArxivParser.split_sentences abstract))%nat; [discriminate|].
  destruct (ArxivParser.split_sentences abstract); [congruence | discriminate].
Qed.

(** X16.  Every key finding is an excerpt of the abstract, taken
    without white space at its ends. *)
Theorem key_findings_are_excerpts (abstract f : string) :
  In f (ArxivParser.extract_key_findings abstract) ->
  trimmed f /\
  exists pre post, abstract = String.append pre (String.append f post).
Proof.
  intros Hf. apply extract_key_findings_sentences in Hf as (s & Hs & ->).
  split; [apply strip_trimmed|].
  destruct (split_from_interleave abstract [] EmptyString) as (seps & Hlen & _ & Hint).
  fold (ArxivParser.split_sentences abstract) in Hlen, Hint.
  change (String.append EmptyString abstract) with abstract in Hint.
  destruct (interleave_piece _ seps s Hs Hlen) as (pre & post & E).
  destruct (strip_excerpt s) as (pre' & post' & Es).
  exists (String.append pre pre'), (String.append post' post).
  rewrite <- Hint, E. rewrite Es at 1. now rewrite !sapp_assoc.
Qed.

Lemma key_findings_are_excerpts_witness :
  trimmed "We propose a new method." /\
  exists pre post,
    MoreExamples.abstract
    = String.append pre (String.append "We propose a new method." post).
Proof.
  apply (key_findings_are_excerpts MoreExamples.abstract "We propose a new method.").
  vm_compute. now left.
Defined.

(** ** Short identifiers *)

Section ShortId.
Local Open Scope string_scope.

Lemma split_dot_from_nonempty (rest : string) :
  forall current, ArxivParser.split_dot_from current rest <> [].
Proof.
  induction rest as [|c rest IH]; intros current; cbn; [discriminate|].
  destruct (Ascii.eqb c ArxivParser.full_stop); [discriminate | apply IH].
Qed.

Lemma from_end_cons (x : string) (l : list string) :
  l <> [] -> ArxivParser.from_end 1 (x :: l) = ArxivParser.from_end 1 l.
Proof.
  intros Hl. unfold ArxivParser.from_end. destruct l as [|y l]; [congruence|].
  cbn [length]. replace (S (S (length l)) - 1)%nat with (S (S (length l) - 1)) by lia.
  reflexivity.
Qed.

Lemma without_app (c : ascii) (s t : string) :
  without c (s ++ t) = without c s && without c t.
Proof.
  induction s as [|a s IH]; [reflexivity|].
  rewrite sapp_cons. cbn [without]. now rewrite IH, andb_assoc.
Qed.

Lemma short_id_from (rest : string) :
  forall current,
    without ArxivParser.full_stop current = true ->
    let short := ArxivParser.from_end 1 (ArxivParser.split_dot_from current rest) in
    without ArxivParser.full_stop short = true /\
    (current ++ rest = short \/
     exists pre, current ++ rest = pre ++ String ArxivParser.full_stop short).
Proof.
  induction rest as [|c rest IH]; intros current Hcur; cbn [ArxivParser.split_dot_from].
  - cbn. rewrite sapp_nil_r. auto.
  - destruct (Ascii.eqb c ArxivParser.full_stop) eqn:E.
    + apply Ascii.eqb_eq in E. subst c.
      rewrite from_end_cons by apply split_dot_from_nonempty.
      destruct (IH "" eq_refl) as [Hw [Hs | [pre Hs]]]; cbn [String.append] in Hs.
      * split; [exact Hw|]. right. exists current. now rewrite <- Hs.
      * split; [exact Hw|]. right. exists (current ++ String ArxivParser.full_stop pre).
        rewrite Hs at 1. now rewrite sapp_assoc, sapp_cons.
    + destruct (IH (current ++ String c "")) as [Hw Hs].
      { rewrite without_app, Hcur. cbn. now rewrite E. }
      split; [exact Hw|]. now rewrite sapp_snoc in Hs.
Qed.
End ShortId.

(** X17.  The short identifier has no full stop, and it is the whole
    identifier or what follows its last full stop. *)
Theorem short_id_suffix (id : string) :
  without ArxivParser.full_stop (ArxivParser.short_id id) = true /\
  (id = ArxivParser.short_id id \/
   exists pre, id = String.append pre (String ArxivParser.full_stop (ArxivParser.short_id id))).
Proof. apply (short_id_from id EmptyString eq_refl). Qed.

(** ** Enrichment *)

Section EnrichFrame.
Variables (keys : list string) (papers : list loc).

Lemma bind_frame {A B} (m : py A) (f : A -> py B) (σ : heap) :
  writes_only keys papers σ (snd (m σ)) ->
  (forall a σ1, writes_only keys papers σ1 (snd (f a σ1))) ->
  writes_only keys papers σ (snd (bind m f σ)).
Proof.
  intros Hm Hf. unfold bind. destruct (m σ) as [[a|e] σ1]; cbn [snd] in *; [|exact Hm].
  eapply writes_only_trans; [exact Hm | apply Hf].
Qed.

Lemma getitem_frame (p : loc) (k : string) (σ : heap) :
  writes_only keys papers σ (snd (getitem p k σ)).
Proof. apply writes_only_refl. Qed.

Lemma lift_frame {A} (r : result A) (σ : heap) :
  writes_only keys papers σ (snd (lift r σ)).
Proof. apply writes_only_refl. Qed.

Lemma setitem_frame (p : loc) (k : string) (v : value) (σ : heap) :
  In k keys -> In p papers -> writes_only keys papers σ (snd (setitem p k v σ)).
Proof.
  intros Hk Hp. eapply writes_only_weaken; [| |apply (writes_only_insert p k v)].
  - intros k' [<-|[]]. exact Hk.
  - intros q [<-|[]]. exact Hp.
Qed.
End EnrichFrame.

Lemma enrich_paper_data_frame (paper : loc) (σ : heap) :
  writes_only enrich_keys [paper] σ (snd (ArxivParser.enrich_paper_data paper σ)).
Proof.
  unfold ArxivParser.enrich_paper_data.
  repeat first
    [ apply bind_frame; [|intros ? ?]
    | apply getitem_frame
    | apply lift_frame
    | apply setitem_frame; [unfold enrich_keys; cbn; tauto | now left]
    | apply writes_only_refl ].
Qed.

(** X18.  On a paper with a textual abstract and identifier and a list
    of authors, [enrich_paper_data] hands back the paper it was given,
    having written into it the key findings, the formatted authors, the
    short identifier and the arXiv address; whatever the paper, it
    writes no other field and no other paper. *)
Theorem enrich_paper_data_writes
  (paper : loc) (σ : heap) (abstract id : string) (authors : list string) :
  σ paper !! "abstract" = Some (VStr abstract) ->
  σ paper !! "authors" = Some (VList authors) ->
  σ paper !! "id" = Some (VStr id) ->
  exists σ',
    ArxivParser.enrich_paper_data paper σ = (Ok paper, σ') /\
    writes_only enrich_keys [paper] σ σ' /\
    σ' paper !! "key_findings" = Some (VList (ArxivParser.extract_key_findings abstract)) /\
    σ' paper !! "formatted_authors" = Some (VStr (ArxivParser.format_names authors)) /\
    σ' paper !! "short_id" = Some (VStr (ArxivParser.short_id id)) /\
    σ' paper !! "arxiv_url" = Some (VStr (ArxivParser.arxiv_url id)).
Proof.
  intros Ha Hn Hi.
  pose proof (enrich_paper_data_frame paper σ) as Hframe.
  assert (E : exists σ',
             ArxivParser.enrich_paper_data paper σ = (Ok paper, σ') /\
             σ' paper
             = <["arxiv_url" := VStr (ArxivParser.arxiv_url id)]>
                 (<["short_id" := VStr (ArxivParser.short_id id)]>
                    (<["formatted_authors" := VStr (ArxivParser.format_names authors)]>
                       (<["key_findings" :=
                            VList (ArxivParser.extract_key_findings abstract)]>
                          (σ paper))))).
  { unfold ArxivParser.enrich_paper_data, bind, getitem, lift, setitem, ret.
    rewrite Ha. cbn [ArxivParser.sentences_source].
    rewrite !fn_lookup_insert, !lookup_insert_ne by discriminate.
    rewrite Hn. cbn [ArxivParser.formatted_authors].
    rewrite !fn_lookup_insert, !lookup_insert_ne by discriminate.
    rewrite Hi. cbn [ArxivParser.split_source].
    rewrite !fn_lookup_insert. eexists. split; [reflexivity|].
    now rewrite fn_lookup_insert. }
  destruct E as (σ' & E & Hp).
  rewrite E in Hframe. cbn [snd] in Hframe.
  exists σ'. split; [exact E|]. split; [exact Hframe|].
  rewrite Hp.
  repeat split;
    repeat first [apply lookup_insert_eq | rewrite lookup_insert_ne by discriminate].
Qed.

Lemma enrich_paper_data_writes_witness :
  exists σ',
    ArxivParser.enrich_paper_data 0%nat (Examples.store [Examples.paper_a]) = (Ok 0%nat, σ') /\
    writes_only enrich_keys [0%nat] (Examples.store [Examples.paper_a]) σ'.
Proof.
  destruct (enrich_paper_data_writes 0%nat (Examples.store [Examples.paper_a])
              "We plan grasps." "2501.00001" ["Ada Lovelace"; "Alan Turing"])
    as (σ' & E & Hframe & _); try (vm_compute; reflexivity).
  exists σ'. split; [exact E | exact Hframe].
Defined.

(** X19.  A paper without an abstract makes [enrich_paper_data] raise
    [KeyError] with the store as it was; a paper with a textual
    abstract but without authors makes it raise [KeyError] after the key
    findings have been written into the paper. *)
Theorem enrich_paper_data_missing_field (paper : loc) (σ : heap) :
  (σ paper !! "abstract" = None ->
   ArxivParser.enrich_paper_data paper σ = (Raise (KeyError "abstract"), σ)) /\
  (forall abstract,
     σ paper !! "abstract" = Some (VStr abstract) -> σ paper !! "authors" = None ->
     exists σ',
       ArxivParser.enrich_paper_data paper σ = (Raise (KeyError "authors"), σ') /\
       σ' paper !! "key_findings"
       = Some (VList (ArxivParser.extract_key_findings abstract)) /\
       writes_only ["key_findings"] [paper] σ σ').
Proof.
  split.
  - intros Ha. unfold ArxivParser.enrich_paper_data, bind, getitem. now rewrite Ha.
  - intros abstract Ha Hn.
    unfold ArxivParser.enrich_paper_data, bind, getitem, lift, setitem, ret.
    rewrite Ha. cbn [ArxivParser.sentences_source].
    rewrite !fn_lookup_insert, !lookup_insert_ne by discriminate.
    rewrite Hn. eexists. split; [reflexivity|]. split.
    + rewrite fn_lookup_insert. apply lookup_insert_eq.
    + apply writes_only_insert.
Qed.

Lemma enrich_paper_data_missing_field_witness :
  exists σ',
    ArxivParser.enrich_paper_data 0%nat (Examples.store [MoreExamples.paper_no_authors])
    = (Raise (KeyError "authors"), σ').
Proof.
  destruct (proj2 (enrich_paper_data_missing_field 0%nat
                     (Examples.store [MoreExamples.paper_no_authors])) "We plan grasps.")
    as (σ' & E & _); try (vm_compute; reflexivity).
  exists σ'. exact E.
Defined.

(** ** Highly cited papers *)

Lemma citation_count_number (paper : dict) :
  number_or_absent (paper !! "citation_count") = true ->
  number (default (VNum 0) (paper !! "citation_count")) = Ok (citations paper).
Proof.
  unfold citations. destruct (paper !! "citation_count") as [[]|]; try discriminate; reflexivity.
Qed.

Lemma highly_cited_loop_total (min_citations : Q) (papers : list loc) :
  forall highly_cited σ,
    (forall p, In p papers -> number_or_absent (σ p !! "citation_count") = true) ->
    CitationAnalyzer.highly_cited_loop min_citations papers highly_cited σ
    = (Ok (highly_cited ++ List.filter (fun p => cited min_citations (σ p)) papers), σ).
Proof.
  induction papers as [|p rest IH]; intros acc σ Hwf.
  - cbn. now rewrite app_nil_r.
  - cbn [CitationAnalyzer.highly_cited_loop List.filter].
    unfold bind at 1 2, get, lift, CitationAnalyzer.at_least.
    rewrite citation_count_number by (apply Hwf; now left). cbn [rbind].
    fold (cited min_citations (σ p)).
    rewrite IH by (intros q Hq; apply Hwf; now right).
    destruct (cited min_citations (σ p)); [|reflexivity].
    now rewrite <- app_assoc.
Qed.

(** X20.  When every citation count present is a number,
    [identify_highly_cited_papers] returns, without touching the store,
    the papers with at least the minimum number of citations, in
    descending order of citations, those with as many citations in input
    order.  A paper without a citation count counts as having none: it
    is returned exactly when the minimum is not positive. *)
Theorem identify_highly_cited_papers_sorted
  (min_citations : Q) (papers : list loc) (σ : heap) :
  (forall p, In p papers -> number_or_absent (σ p !! "citation_count") = true) ->
  exists out,
    CitationAnalyzer.identify_highly_cited_papers min_citations papers σ = (Ok out, σ) /\
    (forall p, In p out <-> In p papers /\ (min_citations <= citations (σ p))%Q) /\
    StronglySorted (before (fun p => citations (σ p))) out /\
    (forall q,
       List.filter (fun p => Qeq_bool (citations (σ p)) q) out
       = List.filter (fun p => Qeq_bool (citations (σ p)) q)
                     (List.filter (fun p => cited min_citations (σ p)) papers)) /\
    (forall p, In p papers -> σ p !! "citation_count" = None ->
               (In p out <-> (min_citations <= 0)%Q)).
Proof.
  intros Hwf.
  assert (Hmem : forall p,
             In p (ranked (fun p => citations (σ p))
                          (List.filter (fun p => cited min_citations (σ p)) papers)) <->
             In p papers /\ (min_citations <= citations (σ p))%Q).
  { intros p. rewrite ranked_In, filter_In. unfold cited. now rewrite Qle_bool_iff. }
  eexists. split; [|split; [exact Hmem|split; [apply ranked_sorted|split]]].
  - unfold CitationAnalyzer.identify_highly_cited_papers, bind at 1.
    rewrite highly_cited_loop_total by assumption. cbn [app].
    unfold sorted_by_key_desc, bind.
    rewrite (keys_of_total CitationAnalyzer.citation_count_key (fun p => citations (σ p)));
      [reflexivity|].
    intros p Hp. apply filter_In in Hp as [Hp _].
    unfold CitationAnalyzer.citation_count_key, bind, get, lift.
    now rewrite citation_count_number by (now apply Hwf).
  - intros q. apply ranked_stable.
  - intros p Hp Hc. rewrite Hmem. unfold citations. rewrite Hc. tauto.
Qed.

Lemma identify_highly_cited_papers_sorted_witness :
  exists out,
    CitationAnalyzer.identify_highly_cited_papers 5 [0; 1; 2]%nat
      (Examples.store [MoreExamples.paper_b_cited; Examples.paper_cited; Examples.paper_a])
    = (Ok out,
       Examples.store [MoreExamples.paper_b_cited; Examples.paper_cited; Examples.paper_a]).
Proof.
  destruct (identify_highly_cited_papers_sorted 5 [0; 1; 2]%nat
              (Examples.store [MoreExamples.paper_b_cited; Examples.paper_cited;
                               Examples.paper_a]))
    as (out & E & _).
  - intros p [<-|[<-|[<-|[]]]]; vm_compute; reflexivity.
  - exists out. exact E.
Defined.

(** ** More on impact ranking *)

Lemma number_raises (v : value) (e : exn) : number v = Raise e -> e = TypeError.
Proof. destruct v; cbn; congruence. Qed.

Lemma impact_turn_cases (p : loc) (σ : heap) :
  (exists s, CitationAnalyzer.impact_turn p σ
             = (Ok tt, <[p := <["impact_score" := VNum s]> (σ p)]> σ)) \/
  CitationAnalyzer.impact_turn p σ = (Raise TypeError, σ).
Proof.
  unfold CitationAnalyzer.impact_turn, bind, get, lift, setitem, CitationAnalyzer.impact.
  destruct (number (default (VNum 0) (σ p !! "citation_count"))) as [c|e] eqn:Ec; cbn [rbind].
  - destruct (number (default (VNum 0) (σ p !! "citation_velocity"))) as [v|e] eqn:Ev;
      cbn [rbind]; [left; eauto|].
    right. now rewrite (number_raises _ _ Ev).
  - right. now rewrite (number_raises _ _ Ec).
Qed.

Lemma impact_turn_not_number (p : loc) (σ : heap) :
  present_not_number (σ p !! "citation_count") = true ->
  CitationAnalyzer.impact_turn p σ = (Raise TypeError, σ).
Proof.
  intros H. unfold CitationAnalyzer.impact_turn, bind, get, lift, CitationAnalyzer.impact.
  destruct (σ p !! "citation_count") as [[]|]; try discriminate; reflexivity.
Qed.

Lemma impact_loop_raises (p : loc) (papers : list loc) :
  In p papers ->
  forall σ,
    present_not_number (σ p !! "citation_count") = true ->
    exists σ', for_each papers CitationAnalyzer.impact_turn σ = (Raise TypeError, σ').
Proof.
  induction papers as [|x rest IH]; intros Hin σ Hbad; [destruct Hin|].
  cbn [for_each]. unfold bind.
  destruct (impact_turn_cases x σ) as [[s E] | E]; rewrite E; [|eauto].
  destruct Hin as [-> | Hin].
  - rewrite impact_turn_not_number in E by assumption. discriminate.
  - apply IH; [exact Hin|].
    destruct (Nat.eq_dec x p) as [-> | Hne].
    + rewrite fn_lookup_insert. now rewrite lookup_insert_ne by discriminate.
    + now rewrite fn_lookup_insert_ne.
Qed.

(** X21.  When some paper's citation count is present but is not a
    number, [rank_papers_by_impact] raises [TypeError]; by then the
    velocity of every paper has been written, and nothing but the
    velocity and impact score fields was touched. *)
Theorem rank_papers_by_impact_type_error
  (today : Z) (papers : list loc) (σ : heap) (p : loc) :
  In p papers -> present_not_number (σ p !! "citation_count") = true ->
  exists σ',
    CitationAnalyzer.rank_papers_by_impact today papers σ = (Raise TypeError, σ') /\
    (forall q, In q papers ->
       σ' q !! "citation_velocity" = Some (VNum (velocity today (σ q)))) /\
    writes_only ["citation_velocity"; "impact_score"] papers σ σ'.
Proof.
  intros Hin Hbad.
  pose proof (rank_papers_by_impact_frame today papers σ) as Hframe.
  destruct (for_each_update (CitationAnalyzer.velocity_turn today) (with_velocity today)
              (fun _ => True) (fun p σ _ => velocity_turn_writes today p σ) (fun _ _ => I)
              (fun d _ => with_velocity_idem today d) papers σ (fun _ _ => I))
    as (σ1 & E1 & Hin1 & _).
  destruct (impact_loop_raises p papers Hin σ1) as [σ2 E2].
  { rewrite (Hin1 p Hin). unfold with_velocity. now rewrite lookup_insert_ne by discriminate. }
  pose proof (for_each_frame ["impact_score"] _ impact_turn_frame papers σ1) as [Hk _].
  rewrite E2 in Hk. cbn [snd] in Hk.
  assert (E : CitationAnalyzer.rank_papers_by_impact today papers σ = (Raise TypeError, σ2)).
  { unfold CitationAnalyzer.rank_papers_by_impact, CitationAnalyzer.calculate_citation_velocity,
      bind at 1, bind at 1.
    rewrite E1. unfold ret at 1. unfold bind at 1. now rewrite E2. }
  rewrite E in Hframe. cbn [snd] in Hframe.
  exists σ2. split; [exact E|]. split; [|exact Hframe].
  intros q Hq. rewrite Hk by (intros [H|[]]; discriminate H).
  rewrite (Hin1 q Hq). apply lookup_insert_eq.
Qed.

Lemma rank_papers_by_impact_type_error_witness :
  exists σ',
    CitationAnalyzer.rank_papers_by_impact Examples.today [0; 1]%nat
      (Examples.store [Examples.paper_cited; MoreExamples.paper_null_citations])
    = (Raise TypeError, σ').
Proof.
  destruct (rank_papers_by_impact_type_error Examples.today [0; 1]%nat
              (Examples.store [Examples.paper_cited; MoreExamples.paper_null_citations])
              1%nat)
    as (σ' & E & _).
  - right. now left.
  - vm_compute; reflexivity.
  - exists σ'. exact E.
Defined.

Lemma days_positive (today d : Z) : (1 <= inject_Z (Z.max 1 (today - d)))%Q.
Proof. change 1%Q with (inject_Z 1). rewrite <- Zle_Qle. lia. Qed.

Lemma velocity_bounds (today : Z) (paper : dict) (c : Q) :
  paper !! "citation_count" = Some (VNum c) -> (0 <= c)%Q ->
  (0 <= velocity today paper <= c)%Q.
Proof.
  intros Hc H0. unfold velocity. rewrite Hc.
  destruct (published paper) as [d|]; [|split; [apply Qle_refl | exact H0]].
  pose proof (days_positive today d) as Hn.
  set (n := inject_Z (Z.max 1 (today - d))) in *.
  assert (0 < n)%Q by lra.
  split.
  - apply Qle_shift_div_l; [assumption|]. lra.
  - apply Qle_shift_div_r; [assumption|].
    assert (0 <= c * (n - 1))%Q by (apply Qmult_le_0_compat; lra). lra.
Qed.


Lemma impact_score_monotone (today : Z) (d1 d2 : dict) (c1 c2 : Q) :
  d1 !! "citation_count" = Some (VNum c1) -> d2 !! "citation_count" = Some (VNum c2) ->
  published d1 = published d2 -> (c1 <= c2)%Q ->
  (impact_score today d1 <= impact_score today d2)%Q.
Proof.
  intros H1 H2 Hd Hle. unfold impact_score, citations, velocity.
  rewrite H1, H2, Hd. destruct (published d2) as [d|]; [|lra].
  pose proof (days_positive today d) as Hn.
  set (n := inject_Z (Z.max 1 (today - d))) in *.
  assert (c1 / n <= c2 / n)%Q.
  { unfold Qdiv. apply Qmult_le_compat_r; [exact Hle|].
    apply Qinv_le_0_compat. lra. }
  lra.
Qed.

(** X23.  Of two papers published the same day, the one with more
    citations gets at least the impact score of the other. *)
Theorem impact_grows_with_citations
  (today : Z) (papers : list loc) (σ : heap) (p1 p2 : loc) (c1 c2 : Q) :
  (forall p, In p papers -> number_or_absent (σ p !! "citation_count") = true) ->
  In p1 papers -> In p2 papers ->
  σ p1 !! "citation_count" = Some (VNum c1) ->
  σ p2 !! "citation_count" = Some (VNum c2) ->
  published (σ p1) = published (σ p2) -> (c1 <= c2)%Q ->
  exists out σ' s1 s2,
    CitationAnalyzer.rank_papers_by_impact today papers σ = (Ok out, σ') /\
    σ' p1 !! "impact_score" = Some (VNum s1) /\
    σ' p2 !! "impact_score" = Some (VNum s2) /\
    (s1 <= s2)%Q.
Proof.
  intros Hwf Hp1 Hp2 H1 H2 Hd Hle.
  destruct (rank_papers_by_impact_total today papers σ Hwf) as (σ' & E & Hin & _).
  eexists _, σ', (impact_score today (σ p1)), (impact_score today (σ p2)).
  split; [exact E|].
  rewrite (Hin p1 Hp1), (Hin p2 Hp2). unfold with_impact.
  rewrite !lookup_insert_eq. do 2 (split; [reflexivity|]).
  now apply (impact_score_monotone today _ _ c1 c2).
Qed.

Lemma impact_grows_with_citations_witness :
  exists out σ' s1 s2,
    CitationAnalyzer.rank_papers_by_impact Examples.today [0; 1]%nat
      (Examples.store [MoreExamples.paper_b_cited;
                       <["citation_count" := VNum 10]> MoreExamples.paper_b_cited])
    = (Ok out, σ') /\
    σ' 0%nat !! "impact_score" = Some (VNum s1) /\
    σ' 1%nat !! "impact_score" = Some (VNum s2) /\
    (s1 <= s2)%Q.
Proof.
  apply (impact_grows_with_citations Examples.today [0; 1]%nat _ 0%nat 1%nat 3 10).
  - intros p [<-|[<-|[]]]; vm_compute; reflexivity.
  - now left.
  - right. now left.
  - vm_compute; reflexivity.
  - vm_compute; reflexivity.
  - vm_compute; reflexivity.
  - vm_compute; discriminate.
Defined.

Lemma with_impact_fields (today : Z) (d : dict) :
  with_impact today d !! "citation_count" = d !! "citation_count" /\
  published (with_impact today d) = published d.
Proof.
  unfold published, with_impact, with_velocity.
  now rewrite !lookup_insert_ne by discriminate.
Qed.

Lemma impact_score_with_impact (today : Z) (d : dict) :
  impact_score today (with_impact today d) = impact_score today d.
Proof.
  destruct (with_impact_fields today d) as [Hc Hd].
  unfold impact_score, citations, velocity. now rewrite Hc, Hd.
Qed.

Lemma with_impact_idem (today : Z) (d : dict) :
  with_impact today (with_impact today d) = with_impact today d.
Proof.
  destruct (with_impact_fields today d) as [Hc Hd].
  assert (Ev : velocity today (with_impact today d) = velocity today d)
    by (unfold velocity; now rewrite Hc, Hd).
  unfold with_impact at 1. rewrite impact_score_with_impact.
  unfold with_velocity at 1. rewrite Ev. unfold with_impact, with_velocity.
  apply map_eq. intros k.
  destruct (decide (k = "impact_score")) as [-> | H1];
    [now rewrite !lookup_insert_eq|].
  rewrite (lookup_insert_ne _ "impact_score" k) by congruence.
  destruct (decide (k = "citation_velocity")) as [-> | H2].
  - rewrite lookup_insert_eq. rewrite lookup_insert_ne by discriminate.
    now rewrite lookup_insert_eq.
  - now rewrite !lookup_insert_ne by congruence.
Qed.

(** X24.  Impact ranking is idempotent: applied to its own result, in
    the store it left, it returns the same list in the same order and
    leaves every paper as it is. *)
Theorem rank_papers_by_impact_idempotent
  (today : Z) (papers out : list loc) (σ σ' : heap) :
  (forall p, In p papers -> number_or_absent (σ p !! "citation_count") = true) ->
  CitationAnalyzer.rank_papers_by_impact today papers σ = (Ok out, σ') ->
  exists σ'',
    CitationAnalyzer.rank_papers_by_impact today out σ' = (Ok out, σ'') /\
    forall p, σ'' p = σ' p.
Proof.
  intros Hwf E.
  destruct (rank_papers_by_impact_total today papers σ Hwf) as (σ1 & E1 & Hin & Hout).
  rewrite E1 in E. injection E as <- <-.
  set (out := ranked _ papers) in *.
  assert (Hmem : forall p, In p out <-> In p papers) by (intros p; apply ranked_In).
  assert (Hsc : forall p, impact_score today (σ1 p) = impact_score today (σ p)).
  { intros p. destruct (in_dec Nat.eq_dec p papers) as [Hp|Hp].
    - rewrite (Hin p Hp). apply impact_score_with_impact.
    - now rewrite (Hout p Hp). }
  destruct (rank_papers_by_impact_total today out σ1) as (σ2 & E2 & Hin2 & Hout2).
  { intros p Hp. apply Hmem in Hp. rewrite (Hin p Hp).
    rewrite (proj1 (with_impact_fields today (σ p))). now apply Hwf. }
  exists σ2. split.
  - rewrite E2. do 2 f_equal.
    rewrite (ranked_ext (fun p => impact_score today (σ p)) _ _ Hsc).
    apply ranked_fixed, ranked_sorted.
  - intros p. destruct (in_dec Nat.eq_dec p out) as [Hp|Hp].
    + rewrite (Hin2 p Hp). apply Hmem in Hp. rewrite (Hin p Hp). apply with_impact_idem.
    + now apply Hout2.
Qed.

Lemma rank_papers_by_impact_idempotent_witness :
  exists σ'',
    CitationAnalyzer.rank_papers_by_impact Examples.today [1; 0]%nat
      (snd (CitationAnalyzer.rank_papers_by_impact Examples.today [0; 1]%nat
              (Examples.store [Examples.paper_b; Examples.paper_cited])))
    = (Ok [1; 0]%nat, σ'').
Proof.
  destruct (rank_papers_by_impact_idempotent Examples.today [0; 1]%nat [1; 0]%nat
              (Examples.store [Examples.paper_b; Examples.paper_cited])
              (snd (CitationAnalyzer.rank_papers_by_impact Examples.today [0; 1]%nat
                      (Examples.store [Examples.paper_b; Examples.paper_cited]))))
    as (σ'' & E & _).
  - intros p [<-|[<-|[]]]; vm_compute; reflexivity.
  - rewrite (surjective_pairing (CitationAnalyzer.rank_papers_by_impact _ _ _)).
    f_equal.
  - exists σ''. exact E.
Defined.
